(** * IKMS-STEMLink: the multi-agent question-answering flow

    A shallow embedding of [src/app/core/agents/agents.py] (the plan parser
    and the four node functions) and of [src/app/core/agents/graph.py]
    (the entry point [run_qa_flow]), with the properties the specification
    states about them.

    Conventions of the embedding.
    - A Python [str] is a [string]; a character stands for a code point
      below 256, so the character classes below are Python's [str.isspace]
      and [str.isdigit] restricted to that range.
    - [None] is [None]; a value of type [str | None] is an [option string].
    - A raised exception is the [Raised] constructor of [outcome]; code
      that threads exceptions is written in the [outcome] monad.
    - The language-model agents are outside the program: a node function
      takes the agent it invokes as an argument. *)

From Stdlib Require Import Ascii String NArith ZArith.
From Stdlib Require DecimalString DecimalZ DecimalPos.
From stdpp Require Import base option list strings gmap.

Local Open Scope stdpp_scope.

(** ** Exceptions *)

Inductive PyExn : Type :=
  | IndexError
  | AgentError (detail : string).

Inductive outcome (A : Type) : Type :=
  | Ok (a : A)
  | Raised (e : PyExn).
Arguments Ok {A} a.
Arguments Raised {A} e.

(** Sequencing: the first exception raised ends the computation. *)
#[global] Instance outcome_ret : MRet outcome := fun A a => Ok a.
#[global] Instance outcome_bind : MBind outcome := fun A B k m =>
  match m with
  | Ok a => k a
  | Raised e => Raised e
  end.

Definition succeeds {A : Type} (m : outcome A) : Prop :=
  match m with Ok _ => True | Raised _ => False end.

(** ** Python string primitives *)

Module Py.

Definition nl : string := String (ascii_of_nat 10) EmptyString.
Definition dquote : string := String (ascii_of_nat 34) EmptyString.

(** [str.isspace] on one character (code points below 256). *)
Definition isspace (c : ascii) : bool :=
  let n := nat_of_ascii c in
  (((9 <=? n) && (n <=? 13)) || ((28 <=? n) && (n <=? 32))
  || (n =? 133) || (n =? 160))%nat.

(** [str.isdigit] on one character (code points below 256): the
    decimal digits and the three superscript digits. *)
Definition isdigit (c : ascii) : bool :=
  let n := nat_of_ascii c in
  (((48 <=? n) && (n <=? 57)) || (n =? 178) || (n =? 179) || (n =? 185))%nat.

(** Membership of a character in a string, as in [c in chars]. *)
Fixpoint mem (c : ascii) (chars : string) : bool :=
  match chars with
  | EmptyString => false
  | String d rest => if Ascii.eqb c d then true else mem c rest
  end.

Fixpoint lstrip_by (p : ascii -> bool) (s : string) : string :=
  match s with
  | EmptyString => EmptyString
  | String c rest => if p c then lstrip_by p rest else s
  end.

(** Drops the longest suffix of characters satisfying [p]. *)
Fixpoint rstrip_by (p : ascii -> bool) (s : string) : string :=
  match s with
  | EmptyString => EmptyString
  | String c rest =>
      match rstrip_by p rest with
      | EmptyString => if p c then EmptyString else String c EmptyString
      | kept => String c kept
      end
  end.

Definition strip_by (p : ascii -> bool) (s : string) : string :=
  rstrip_by p (lstrip_by p s).

(** [s.strip()] *)
Definition strip (s : string) : string := strip_by isspace s.

(** [s.strip(chars)] *)
Definition strip_chars (chars s : string) : string :=
  strip_by (fun c => mem c chars) s.

(** [s.startswith(p)] *)
Fixpoint startswith (p s : string) : bool :=
  match p, s with
  | EmptyString, _ => true
  | String a p', String b s' => if Ascii.eqb a b then startswith p' s' else false
  | String _ _, EmptyString => false
  end.

(** [s.split(sep)] for a one-character separator: the pieces between
    the occurrences of [sep], always at least one piece. *)
Fixpoint split_on (sep : ascii) (s : string) : list string :=
  match s with
  | EmptyString => [EmptyString]
  | String c rest =>
      if Ascii.eqb c sep then EmptyString :: split_on sep rest
      else match split_on sep rest with
           | [] => [String c EmptyString]
           | piece :: pieces => String c piece :: pieces
           end
  end.

(** [sep.join(parts)] *)
Fixpoint join (sep : string) (parts : list string) : string :=
  match parts with
  | [] => EmptyString
  | [p] => p
  | p :: rest => p +:+ sep +:+ join sep rest
  end.

(** [s[:n]] for a non-negative [n]. *)
Fixpoint take (n : nat) (s : string) : string :=
  match n, s with
  | O, _ => EmptyString
  | S _, EmptyString => EmptyString
  | S n', String c rest => String c (take n' rest)
  end.

(** Truth value of a string: non-empty. *)
Definition truthy (s : string) : bool :=
  match s with EmptyString => false | String _ _ => true end.

(** [s[0]], which raises [IndexError] on the empty string. *)
Definition first_char (s : string) : outcome ascii :=
  match s with
  | EmptyString => Raised IndexError
  | String c _ => Ok c
  end.

(** The rendering of a [str | None] value inside an f-string. *)
Definition fmt_opt (o : option string) : string :=
  match o with Some s => s | None => "None" end.

End Py.

(** ** The plan parser: [_parse_plan_and_subquestions] *)

Module Parser.

(** The local variables of the parser that the loop updates. *)
Record state : Type := mk_state {
  plan_lines : list string;
  sub_questions : list string;
  in_plan : bool;
  in_subq : bool
}.

Definition init : state :=
  {| plan_lines := []; sub_questions := []; in_plan := false; in_subq := false |}.

(** The test [line.startswith("plan:")] of the loop. *)
Definition plan_header (line : string) : bool := Py.startswith "plan:" line.

(** The test [line.startswith("sub_questions:")], reached only when the
    first test fails. *)
Definition subq_header (line : string) : bool :=
  negb (plan_header line) && Py.startswith "sub_questions:" line.

(** [line.strip("- ")], then [strip] of the double-quote character. *)
Definition clean_query (line : string) : string :=
  Py.strip_chars Py.dquote (Py.strip_chars "- " line).

(** One iteration of [for line in lines]. *)
Definition parse_line (st : state) (raw : string) : outcome state :=
  let line := Py.strip raw in
  if Py.startswith "plan:" line then
    Ok {| plan_lines := plan_lines st; sub_questions := sub_questions st;
          in_plan := true; in_subq := false |}
  else if Py.startswith "sub_questions:" line then
    Ok {| plan_lines := plan_lines st; sub_questions := sub_questions st;
          in_plan := false; in_subq := true |}
  else
    numbered ← (if in_plan st then
                  if Py.truthy line then
                    c ← Py.first_char line; Ok (Py.isdigit c)
                  else Ok false
                else Ok false);
    if (numbered : bool) then
      Ok {| plan_lines := plan_lines st ++ [line];
            sub_questions := sub_questions st;
            in_plan := in_plan st; in_subq := in_subq st |}
    else if in_subq st && Py.startswith "-" line then
      Ok {| plan_lines := plan_lines st;
            sub_questions := sub_questions st ++ [clean_query line];
            in_plan := in_plan st; in_subq := in_subq st |}
    else Ok st.

Fixpoint parse_lines (st : state) (lines : list string) : outcome state :=
  match lines with
  | [] => Ok st
  | raw :: rest => st' ← parse_line st raw; parse_lines st' rest
  end.

(** The loop over [content.split("\n")], from the initial variables. *)
Definition collect (content : string) : outcome state :=
  parse_lines init (Py.split_on (ascii_of_nat 10) content).

(** ["\n".join(plan_lines) if plan_lines else None] *)
Definition finish_plan (ls : list string) : option string :=
  match ls with [] => None | _ :: _ => Some (Py.join Py.nl ls) end.

(** [sub_questions if sub_questions else None] *)
Definition finish_subqs (qs : list string) : option (list string) :=
  match qs with [] => None | _ :: _ => Some qs end.

End Parser.

Definition _parse_plan_and_subquestions (content : string)
  : outcome (option string * option (list string)) :=
  if negb (Py.truthy content) then Ok (None, None)
  else
    st ← Parser.collect content;
    Ok (Parser.finish_plan (Parser.plan_lines st),
        Parser.finish_subqs (Parser.sub_questions st)).

(** ** Messages *)

(** An entry of the conversation history: a dict with the keys ["role"]
    and ["content"]. *)
Record Message : Type := mkMessage { role : string; content : string }.

(** The message objects exchanged with an agent.  The payload is the
    text [str(msg.content)]. *)
Inductive BaseMessage : Type :=
  | HumanMessage (text : string)
  | AIMessage (text : string)
  | ToolMessage (text : string)
  | SystemMessage (text : string).

(** The dict an agent returns, of which the nodes read the key
    ["messages"] with [result.get("messages", [])]. *)
Record AgentResult : Type := mkAgentResult {
  result_messages : option (list BaseMessage)
}.

Definition get_messages (result : AgentResult) : list BaseMessage :=
  default [] (result_messages result).

(** [agent.invoke({"messages": msgs})]: the agent answers or raises. *)
Definition Agent : Type := list BaseMessage -> outcome AgentResult.

Fixpoint first_ai_content (msgs : list BaseMessage) : string :=
  match msgs with
  | [] => ""
  | AIMessage text :: _ => text
  | _ :: rest => first_ai_content rest
  end.

Definition _extract_last_ai_content (messages : list BaseMessage) : string :=
  first_ai_content (reverse messages).

(** ** The state of the flow *)

Record QAState : Type := mkQAState {
  question : string;
  plan : option string;
  sub_questions : option (list string);
  context : option string;
  draft_answer : option string;
  answer : option string;
  messages : list Message
}.

(** What a node returns: a dict holding some of the keys of [QAState].
    A field is [None] when the key is absent from the dict. *)
Record QAUpdate : Type := mkQAUpdate {
  upd_question : option string;
  upd_plan : option (option string);
  upd_sub_questions : option (option (list string));
  upd_context : option (option string);
  upd_draft_answer : option (option string);
  upd_answer : option (option string);
  upd_messages : option (list Message)
}.

(** ** The node functions *)

(** [l[-n:]] for a positive [n]. *)
Definition last_n {A : Type} (n : nat) (l : list A) : list A :=
  drop (length l - n) l.

(** The body of the loop of [planner_node] over the history window. *)
Definition to_agent_messages (msg : Message) : list BaseMessage :=
  if String.eqb (role msg) "user" then [HumanMessage (content msg)]
  else if String.eqb (role msg) "assistant" then [AIMessage (content msg)]
  else [].

Definition planner_messages (state : QAState) : list BaseMessage :=
  concat (map to_agent_messages (last_n 6 (messages state)))
  ++ [HumanMessage (question state)].

Definition planner_node (planner_agent : Agent) (state : QAState) : outcome QAUpdate :=
  result ← planner_agent (planner_messages state);
  let content := _extract_last_ai_content (get_messages result) in
  parsed ← _parse_plan_and_subquestions content;
  Ok {| upd_question := None; upd_plan := Some (fst parsed);
        upd_sub_questions := Some (snd parsed);
        upd_context := None; upd_draft_answer := None; upd_answer := None;
        upd_messages := None |}.

(** ['\n'.join(f"- {sq}" for sq in sub_questions) if sub_questions else "None"] *)
Definition formatted_subqs (sub_questions : option (list string)) : string :=
  match sub_questions with
  | Some (q :: qs) => Py.join Py.nl (map (fun sq => "- " +:+ sq) (q :: qs))
  | Some [] | None => "None"
  end.

(** The test [msg["role"] == "assistant"]. *)
Definition is_assistant (msg : Message) : Prop := role msg = "assistant".

(** [next((msg["content"] for msg in reversed(history)
          if msg["role"] == "assistant"), None)] *)
Definition last_assistant_content (history : list Message) : option string :=
  content <$> head (filter is_assistant (reverse history)).

(** The f-string that makes the continuity hint from an answer. *)
Definition excerpt_note (last_answer : string) : string :=
  Py.nl +:+ "[Previous answer excerpt: " +:+ Py.take 200 last_answer
        +:+ "...]" +:+ Py.nl.

Definition context_note (history : list Message) : string :=
  if (2 <=? length history)%nat then
    match last_assistant_content history with
    | Some last_answer =>
        if Py.truthy last_answer then excerpt_note last_answer else ""
    | None => ""
    end
  else "".

Definition retrieval_query (state : QAState) : string :=
  context_note (messages state) +:+ "Question: " +:+ question state
  +:+ Py.nl +:+ Py.nl +:+ "Plan:" +:+ Py.nl +:+ Py.fmt_opt (plan state)
  +:+ Py.nl +:+ Py.nl +:+ "Sub-Questions:" +:+ Py.nl
  +:+ formatted_subqs (sub_questions state).

Fixpoint first_tool_content (msgs : list BaseMessage) : string :=
  match msgs with
  | [] => ""
  | ToolMessage text :: _ => text
  | _ :: rest => first_tool_content rest
  end.

(** The loop of [retrieval_node] over [reversed(messages)]. *)
Definition last_tool_content (messages : list BaseMessage) : string :=
  first_tool_content (reverse messages).

Definition retrieval_node (retrieval_agent : Agent) (state : QAState) : outcome QAUpdate :=
  result ← retrieval_agent [HumanMessage (retrieval_query state)];
  let context := last_tool_content (get_messages result) in
  Ok {| upd_question := None; upd_plan := None; upd_sub_questions := None;
        upd_context := Some (Some context);
        upd_draft_answer := None; upd_answer := None; upd_messages := None |}.

Definition summarization_query (state : QAState) : string :=
  "Question: " +:+ question state +:+ Py.nl +:+ Py.nl +:+ "Context:" +:+ Py.nl
  +:+ Py.fmt_opt (context state).

Definition summarization_node (summarization_agent : Agent) (state : QAState)
  : outcome QAUpdate :=
  result ← summarization_agent [HumanMessage (summarization_query state)];
  let draft_answer := _extract_last_ai_content (get_messages result) in
  Ok {| upd_question := None; upd_plan := None; upd_sub_questions := None;
        upd_context := None; upd_draft_answer := Some (Some draft_answer);
        upd_answer := None; upd_messages := None |}.

Definition verification_query (state : QAState) : string :=
  "Question: " +:+ question state +:+ Py.nl +:+ Py.nl +:+ "Context:" +:+ Py.nl
  +:+ Py.fmt_opt (context state) +:+ Py.nl +:+ Py.nl +:+ "Draft Answer:" +:+ Py.nl
  +:+ Py.fmt_opt (draft_answer state) +:+ Py.nl +:+ Py.nl
  +:+ "Please verify and correct the draft answer, removing any unsupported claims.".

Definition verification_node (verification_agent : Agent) (state : QAState)
  : outcome QAUpdate :=
  result ← verification_agent [HumanMessage (verification_query state)];
  let answer := _extract_last_ai_content (get_messages result) in
  Ok {| upd_question := None; upd_plan := None; upd_sub_questions := None;
        upd_context := None; upd_draft_answer := None;
        upd_answer := Some (Some answer);
        upd_messages := Some [{| role := "assistant"; content := answer |}] |}.

(** The four agents created at module level in [agents.py]. *)
Record Agents : Type := mkAgents {
  planner_agent : Agent;
  retrieval_agent : Agent;
  summarization_agent : Agent;
  verification_agent : Agent
}.

(** ** The graph and its checkpoints *)

(** The values a dict of the flow can hold. *)
Inductive Value : Type :=
  | VNone
  | VStr (s : string)
  | VStrs (l : list string)
  | VMessages (l : list Message).

Definition opt_value {A : Type} (inj : A -> Value) (o : option A) : Value :=
  match o with Some a => inj a | None => VNone end.

Module Graph.

(** Modelled from the spec: the declaration of [QAState] ([state.py]),
    which fixes how a value returned under a key is merged into the
    state, and the engine that runs the compiled graph are not among
    the sources.  Following the specification, a node's dict is merged
    into the running state key by key; the entries returned under
    ["messages"] are appended to the history, every other key is
    overwritten. *)
Definition merge (state : QAState) (u : QAUpdate) : QAState :=
  {| question := default (question state) (upd_question u);
     plan := default (plan state) (upd_plan u);
     sub_questions := default (sub_questions state) (upd_sub_questions u);
     context := default (context state) (upd_context u);
     draft_answer := default (draft_answer state) (upd_draft_answer u);
     answer := default (answer state) (upd_answer u);
     messages := messages state ++ default [] (upd_messages u) |}.

(** Modelled from the spec: one node of the graph, which is run on the
    running state and whose dict is merged into it. *)
Definition step (node : QAState -> outcome QAUpdate) (state : QAState)
  : outcome QAState :=
  u ← node state; Ok (merge state u).

(** Modelled from the spec: the run of the graph built by
    [create_qa_graph], whose edges are START, planner, retrieval,
    summarization, verification, END.  The nodes run in that order from
    the state the run starts from; an exception of a node ends the
    run. *)
Definition invoke (agents : Agents) (initial_state : QAState) : outcome QAState :=
  s1 ← step (planner_node (planner_agent agents)) initial_state;
  s2 ← step (retrieval_node (retrieval_agent agents)) s1;
  s3 ← step (summarization_node (summarization_agent agents)) s2;
  step (verification_node (verification_agent agents)) s3.

(** The state a run with a checkpointer starts from.  The engine
    writes the input of the run to the state checkpointed for the thread
    in the way it writes the dict of a node: every other key of the
    input overwrites, and the entries given under ["messages"] are
    appended to the checkpointed history.  Without checkpoint the
    history starts empty. *)
Definition resume (existing_state : option QAState) (input : QAState) : QAState :=
  {| question := question input;
     plan := plan input;
     sub_questions := sub_questions input;
     context := context input;
     draft_answer := draft_answer input;
     answer := answer input;
     messages :=
       match existing_state with
       | Some checkpointed => messages checkpointed
       | None => []
       end ++ messages input |}.

(** Modelled from the spec: the dict a run returns, which holds the
    final value of every key of the state. *)
Definition values (state : QAState) : gmap string Value :=
  <["plan" := opt_value VStr (plan state)]>
  (<["sub_questions" := opt_value VStrs (sub_questions state)]>
  (<["question" := VStr (question state)]>
  (<["context" := opt_value VStr (context state)]>
  (<["draft_answer" := opt_value VStr (draft_answer state)]>
  (<["answer" := opt_value VStr (answer state)]>
  (<["messages" := VMessages (messages state)]> ∅)))))).

End Graph.

(** ** Session identifiers *)

Module Uuid.

Definition hex_digit (d : N) : ascii :=
  match String.get (N.to_nat d) "0123456789abcdef" with
  | Some c => c
  | None => "0"%char
  end.

(** ['%0<width>x' % n], for [n] below [16 ^ width]. *)
Fixpoint hex_fixed (width : nat) (n : N) : string :=
  match width with
  | O => ""
  | S w => hex_fixed w (n / 16) +:+ String (hex_digit (n mod 16)) ""
  end.

(** [str(u)] for the UUID whose 128-bit integer is [n]: the 32
    hexadecimal digits in groups of 8, 4, 4, 4 and 12. *)
Definition to_str (n : N) : string :=
  let hex := hex_fixed 32 n in
  String.substring 0 8 hex +:+ "-" +:+ String.substring 8 4 hex +:+ "-"
  +:+ String.substring 12 4 hex +:+ "-" +:+ String.substring 16 4 hex +:+ "-"
  +:+ String.substring 20 12 hex.

End Uuid.

(** ** The entry point: [run_qa_flow] *)

(** The checkpoints kept by the checkpointer, by thread identifier. *)
Abbreviation Checkpoints := (gmap string QAState).

(** [session_id if session_id else str(uuid.uuid4())]; [uuid4] is the
    integer of the UUID that [uuid.uuid4()] draws. *)
Definition thread_id_of (session_id : option string) (uuid4 : N) : string :=
  match session_id with
  | Some sid => if Py.truthy sid then sid else Uuid.to_str uuid4
  | None => Uuid.to_str uuid4
  end.

Definition user_entry (question : string) : Message :=
  {| role := "user"; content := question |}.

Definition assistant_entry (answer : string) : Message :=
  {| role := "assistant"; content := answer |}.

(** The history given to a run: the checkpointed one, when there is a
    checkpoint with a non-empty history, extended with the question. *)
Definition initial_messages (existing_state : option QAState) (question : string)
  : list Message :=
  match existing_state with
  | Some prev =>
      match messages prev with
      | [] => [user_entry question]
      | _ :: _ => messages prev ++ [user_entry question]
      end
  | None => [user_entry question]
  end.

Definition run_qa_flow (agents : Agents) (uuid4 : N) (checkpoints : Checkpoints)
    (question : string) (session_id : option string)
  : outcome (gmap string Value * Checkpoints) :=
  let thread_id := thread_id_of session_id uuid4 in
  let existing_state := checkpoints !! thread_id in
  let messages := initial_messages existing_state question in
  let initial_state :=
    {| plan := None; sub_questions := None; question := question;
       context := None; draft_answer := None; answer := None;
       messages := messages |} in
  final_state ← Graph.invoke agents (Graph.resume existing_state initial_state);
  Ok (<["session_id" := VStr thread_id]> (Graph.values final_state),
      <[thread_id := final_state]> checkpoints).

(** Whether the four agents answer whatever they are sent. *)
Definition agents_respond (agents : Agents) : Prop :=
  ∀ msgs, succeeds (planner_agent agents msgs)
          ∧ succeeds (retrieval_agent agents msgs)
          ∧ succeeds (summarization_agent agents msgs)
          ∧ succeeds (verification_agent agents msgs).

(** Every character of [s] satisfies [p]. *)
Fixpoint all_chars (p : ascii → bool) (s : string) : bool :=
  match s with
  | EmptyString => true
  | String c rest => p c && all_chars p rest
  end.

(** A line is no section marker when, trimmed, it starts with neither header. *)
Definition no_marker (raw : string) : Prop :=
  Parser.plan_header (Py.strip raw) = false
  ∧ Parser.subq_header (Py.strip raw) = false.

(** The cleaning of a sub-question line as the specification words it,
    for comparison with [Parser.clean_query]: only a leading ["- "] is
    removed, then the surrounding double-quote characters. *)
Definition clean_query_leading_only (line : string) : string :=
  Py.strip_chars Py.dquote
    (if Py.startswith "- " line
     then String.substring 2 (String.length line - 2) line
     else line).

(** The message sequence of the Plan stage as the specification words
    it, for comparison with [planner_messages]: the window is the last
    six turns, a turn being a user entry and an assistant entry. *)
Definition planner_messages_six_turns (state : QAState) : list BaseMessage :=
  concat (map to_agent_messages (last_n 12 (messages state)))
  ++ [HumanMessage (question state)].

(** The value of a hexadecimal digit, the inverse of [Uuid.hex_digit]. *)
Definition hex_value (c : ascii) : N :=
  match String.index 0 (String c "") "0123456789abcdef" with
  | Some i => N.of_nat i
  | None => 0
  end.

(** ** Sample data *)

Module Sample.

(** An agent that answers every request with the same messages. *)
Definition replying (msgs : list BaseMessage) : Agent :=
  fun _ => Ok {| result_messages := Some msgs |}.

(** An agent whose result dict has no ["messages"] key. *)
Definition silent : Agent := fun _ => Ok {| result_messages := None |}.

Definition planner_output : string :=
  "plan:" +:+ Py.nl +:+ "1. A" +:+ Py.nl +:+ "2. B" +:+ Py.nl +:+
  "sub_questions:" +:+ Py.nl +:+ "- " +:+ Py.dquote +:+ "x" +:+ Py.dquote
  +:+ Py.nl +:+ "- y".

Definition agents : Agents :=
  {| planner_agent := replying [AIMessage planner_output];
     retrieval_agent :=
       replying [AIMessage "searching"; ToolMessage "first lookup";
                 ToolMessage "Vector databases store embeddings";
                 AIMessage "done"];
     summarization_agent := replying [AIMessage "draft"];
     verification_agent := replying [AIMessage "final"] |}.

(** The integers of two version-4 UUIDs. *)
Definition uuid_a : N := 0x40008000000000000007.
Definition uuid_b : N := 0x40008000000000000008.

Definition turn (q a : string) : list Message :=
  [{| role := "user"; content := q |}; {| role := "assistant"; content := a |}].

Definition state_with (q : string) (history : list Message) : QAState :=
  {| question := q; plan := None; sub_questions := None; context := None;
     draft_answer := None; answer := None; messages := history |}.

(** A state in plan mode and one in sub-question mode. *)
Definition in_plan_mode : Parser.state :=
  {| Parser.plan_lines := []; Parser.sub_questions := [];
     Parser.in_plan := true; Parser.in_subq := false |}.
Definition in_subq_mode : Parser.state :=
  {| Parser.plan_lines := []; Parser.sub_questions := [];
     Parser.in_plan := false; Parser.in_subq := true |}.

End Sample.

(** ** Shapes of collected text *)

(** The text holds no newline. *)
Definition single_line (s : string) : Prop := Py.mem (ascii_of_nat 10) s = false.

(** The text is non-empty and its first character is a digit. *)
Definition starts_with_digit (s : string) : Prop :=
  ∃ c rest, s = String c rest ∧ Py.isdigit c = true.

(** What holds of a line collected for the plan. *)
Definition plan_line_ok (line : string) : Prop :=
  starts_with_digit line ∧ single_line line ∧ Py.strip line = line.

(** What holds of a collected sub-question. *)
Definition sub_question_ok (query : string) : Prop :=
  single_line query ∧ Py.strip_chars Py.dquote query = query.

(** The number of entries collected so far. *)
Definition collected_count (st : Parser.state) : nat :=
  length (Parser.plan_lines st) + length (Parser.sub_questions st).

(** What the parser keeps true of its variables. *)
Definition parser_invariant (st : Parser.state) : Prop :=
  Parser.in_plan st && Parser.in_subq st = false
  ∧ Forall plan_line_ok (Parser.plan_lines st)
  ∧ Forall sub_question_ok (Parser.sub_questions st).

(** Agents of which the retrieval agent raises. *)
Definition agents_with_failing_retrieval : Agents :=
  {| planner_agent := planner_agent Sample.agents;
     retrieval_agent := λ _, Raised (AgentError "rate limit");
     summarization_agent := summarization_agent Sample.agents;
     verification_agent := verification_agent Sample.agents |}.

(** ** The module-level objects of [graph.py] *)

(** The names [START] and [END] of [langgraph.constants]. *)
Definition START : string := "__start__".
Definition END : string := "__end__".

(** A node function given to [add_node].  The agents, module-level
    objects of [agents.py], are an argument here. *)
Definition NodeFn : Type := Agents → QAState → outcome QAUpdate.

(** A graph under construction: what [add_node] and [add_edge] have
    recorded, in the order of the calls. *)
Record StateGraph : Type := mkStateGraph {
  builder_nodes : list (string * NodeFn);
  builder_edges : list (string * string)
}.

Definition empty_builder : StateGraph :=
  {| builder_nodes := []; builder_edges := [] |}.

Definition add_node (name : string) (fn : NodeFn) (builder : StateGraph) : StateGraph :=
  {| builder_nodes := builder_nodes builder ++ [(name, fn)];
     builder_edges := builder_edges builder |}.

Definition add_edge (source target : string) (builder : StateGraph) : StateGraph :=
  {| builder_nodes := builder_nodes builder;
     builder_edges := builder_edges builder ++ [(source, target)] |}.

(** A compiled graph: an object of its own, with the nodes and edges of
    the builder and the checkpointer given to [compile]. Objects are
    told apart by a number given at creation. *)
Record CompiledGraph : Type := mkCompiledGraph {
  graph_object : nat;
  graph_nodes : list (string * NodeFn);
  graph_edges : list (string * string);
  graph_checkpointer : nat
}.

(** The state of the module: the global [_checkpointer], the one entry
    of the cache that [lru_cache(maxsize=1)] keeps for [get_qa_graph],
    and the number of objects created so far. *)
Record Globals : Type := mkGlobals {
  _checkpointer : option nat;
  qa_graph_cache : option CompiledGraph;
  objects_created : nat
}.

(** The module as it is after import. *)
Definition globals_at_import : Globals :=
  {| _checkpointer := None; qa_graph_cache := None; objects_created := 0 |}.

Definition get_checkpointer (g : Globals) : nat * Globals :=
  match _checkpointer g with
  | None =>
      (objects_created g,
       {| _checkpointer := Some (objects_created g);
          qa_graph_cache := qa_graph_cache g;
          objects_created := S (objects_created g) |})
  | Some saver => (saver, g)
  end.

(** The builder of [create_qa_graph] after its calls of [add_node] and
    [add_edge]. *)
Definition qa_builder : StateGraph :=
  let builder := empty_builder in
  let builder := add_node "planner" (λ agents, planner_node (planner_agent agents)) builder in
  let builder := add_node "retrieval" (λ agents, retrieval_node (retrieval_agent agents)) builder in
  let builder := add_node "summarization"
                   (λ agents, summarization_node (summarization_agent agents)) builder in
  let builder := add_node "verification"
                   (λ agents, verification_node (verification_agent agents)) builder in
  let builder := add_edge START "planner" builder in
  let builder := add_edge "planner" "retrieval" builder in
  let builder := add_edge "retrieval" "summarization" builder in
  let builder := add_edge "summarization" "verification" builder in
  add_edge "verification" END builder.

Definition create_qa_graph (g : Globals) : CompiledGraph * Globals :=
  let '(saver, g1) := get_checkpointer g in
  ({| graph_object := objects_created g1;
      graph_nodes := builder_nodes qa_builder;
      graph_edges := builder_edges qa_builder;
      graph_checkpointer := saver |},
   {| _checkpointer := _checkpointer g1;
      qa_graph_cache := qa_graph_cache g1;
      objects_created := S (objects_created g1) |}).

(** [get_qa_graph]: the cached graph when there is one, else the graph
    that [create_qa_graph] makes, which is cached. *)
Definition get_qa_graph (g : Globals) : CompiledGraph * Globals :=
  match qa_graph_cache g with
  | Some graph => (graph, g)
  | None =>
      let '(graph, g1) := create_qa_graph g in
      (graph,
       {| _checkpointer := _checkpointer g1;
          qa_graph_cache := Some graph;
          objects_created := objects_created g1 |})
  end.

(** A use of the module, and what it returns. *)
Inductive Call : Type := CallGetCheckpointer | CallCreateGraph | CallGetGraph.

Inductive Returned : Type :=
  | RetCheckpointer (saver : nat)
  | RetCreated (graph : CompiledGraph)
  | RetCached (graph : CompiledGraph).

Definition call (c : Call) (g : Globals) : Returned * Globals :=
  match c with
  | CallGetCheckpointer => let '(saver, g') := get_checkpointer g in (RetCheckpointer saver, g')
  | CallCreateGraph => let '(graph, g') := create_qa_graph g in (RetCreated graph, g')
  | CallGetGraph => let '(graph, g') := get_qa_graph g in (RetCached graph, g')
  end.

Fixpoint calls (cs : list Call) (g : Globals) : list Returned * Globals :=
  match cs with
  | [] => ([], g)
  | c :: rest =>
      let '(r, g1) := call c g in
      let '(rs, g2) := calls rest g1 in
      (r :: rs, g2)
  end.

(** The checkpointer that a returned object is or uses. *)
Definition checkpointer_of (r : Returned) : nat :=
  match r with
  | RetCheckpointer saver => saver
  | RetCreated graph | RetCached graph => graph_checkpointer graph
  end.

(** A cached graph uses the checkpointer of the module. *)
Definition globals_consistent (g : Globals) : Prop :=
  ∀ graph, qa_graph_cache g = Some graph →
           _checkpointer g = Some (graph_checkpointer graph).

(** The target of the first edge recorded from a name. *)
Definition successor (edges : list (string * string)) (name : string) : option string :=
  snd <$> List.find (λ edge, String.eqb (fst edge) name) edges.

Definition node_named (nodes : list (string * NodeFn)) (name : string) : option NodeFn :=
  snd <$> List.find (λ node, String.eqb (fst node) name) nodes.

(** The names met when the edges are followed from a name, up to a
    number of steps. *)
Fixpoint path (steps : nat) (edges : list (string * string)) (name : string)
  : list string :=
  match steps with
  | O => []
  | S steps' =>
      name :: match successor edges name with
              | Some next => path steps' edges next
              | None => []
              end
  end.

(** Modelled from the spec: the run of a compiled graph each of whose
    nodes has one outgoing edge.  The edges are followed from [START];
    each node met is run on the running state and its dict merged into
    it, until [END] is met or a node raises.  [None] when the walk does
    not end within the given number of steps. *)
Fixpoint walk (steps : nat) (graph : CompiledGraph) (agents : Agents)
    (name : string) (state : QAState) : option (outcome QAState) :=
  match steps with
  | O => None
  | S steps' =>
      if String.eqb name END then Some (Ok state)
      else
        match successor (graph_edges graph) name with
        | None => None
        | Some next =>
            match node_named (graph_nodes graph) name with
            | None => walk steps' graph agents next state
            | Some fn =>
                match Graph.step (fn agents) state with
                | Ok state' => walk steps' graph agents next state'
                | Raised e => Some (Raised e)
                end
            end
        end
  end.

(** The run from [START], within the 25 steps that the engine allows by
    default. *)
Definition run_graph (graph : CompiledGraph) (agents : Agents) (state : QAState)
  : option (outcome QAState) :=
  walk 25 graph agents START state.

(** ** The upload of a file: [upload_file.py] *)

Module Upload.

(** An operation outside the program.  It returns; or it raises an
    exception [e] of the class [Exception], kept as the text [str(e)],
    which the [except Exception] clause catches; or it raises an
    exception outside that class (a [BaseException] such as
    [asyncio.CancelledError] or [KeyboardInterrupt]), which the clause
    does not catch. *)
Inductive attempt (A : Type) : Type :=
  | Returns (a : A)
  | Raises (message : string)
  | Escapes (message : string).
Arguments Returns {A} a.
Arguments Raises {A} message.
Arguments Escapes {A} message.

(** The file received: its declared content type, its name, and what
    [await file.read()] gives. *)
Record UploadFile : Type := mkUploadFile {
  content_type : option string;
  filename : option string;
  read : attempt string
}.

(** The storage service as the function uses it: the client and bucket
    name that [get_supabase_client] returns, the upload of a content
    under a path of a bucket, and the public URL of a path. *)
Record Supabase : Type := mkSupabase {
  get_supabase_client : attempt string;
  upload : string → string → string → attempt unit;
  get_public_url : string → string → attempt string
}.

(** What the function does that can be seen from outside. *)
Inductive Event : Type :=
  | LogInfo (message : string)
  | LogError (message : string)
  | StorageUpload (bucket path content mime : string) (upsert : bool).

(** How a call ends: with the dict it returns, with the
    [HTTPException] it raises, or with an exception of an operation that
    it did not catch. *)
Inductive Response : Type :=
  | Uploaded (filename url : string)
  | HTTPException (status_code : nat) (detail : string)
  | Uncaught (message : string).

(** [str(n)] for an integer. *)
Definition str_int (n : Z) : string :=
  DecimalString.NilZero.string_of_int (Z.to_int n).

(** [f"{timestamp}_{file.filename}"] *)
Definition unique_filename (timestamp : Z) (file : UploadFile) : string :=
  str_int timestamp +:+ "_" +:+ Py.fmt_opt (filename file).

(** What the [except Exception as e] clause does. *)
Definition failed (trace : list Event) (message : string) : Response * list Event :=
  (HTTPException 500 "Failed to upload file",
   trace ++ [LogError ("Supabase upload failed: " +:+ message)]).

(** [uploadFile]; [timestamp] is [int(time.time())] at the call. *)
Definition uploadFile (supabase : Supabase) (timestamp : Z) (file : UploadFile)
  : Response * list Event :=
  if negb (bool_decide (content_type file = Some "application/pdf")) then
    (HTTPException 400 "Only PDF files are allowed", [])
  else
    match read file with
    | Raises e => failed [] e
    | Escapes e => (Uncaught e, [])
    | Returns contents =>
        let unique_filename := unique_filename timestamp file in
        let trace := [LogInfo ("Starting upload for " +:+ Py.fmt_opt (filename file))] in
        match get_supabase_client supabase with
        | Raises e => failed trace e
        | Escapes e => (Uncaught e, trace)
        | Returns bucket_name =>
            let trace :=
              trace ++ [StorageUpload bucket_name unique_filename contents
                          "application/pdf" false] in
            match upload supabase bucket_name unique_filename contents with
            | Raises e => failed trace e
            | Escapes e => (Uncaught e, trace)
            | Returns _ =>
                let trace :=
                  trace ++ [LogInfo ("Successfully uploaded to Supabase: "
                                     +:+ unique_filename)] in
                match get_public_url supabase bucket_name unique_filename with
                | Raises e => failed trace e
                | Escapes e => (Uncaught e, trace)
                | Returns file_url => (Uploaded unique_filename file_url, trace)
                end
            end
        end
    end.

(** The first of the four operations of a call that does not return
    ends as [failure] says: reading the file, getting the client,
    uploading, getting the public URL, each reached when the ones before
    it returned. *)
Definition first_failure (supabase : Supabase) (timestamp : Z) (file : UploadFile)
    (failure : ∀ A : Type, attempt A) : Prop :=
  let name := unique_filename timestamp file in
  read file = failure string
  ∨ (∃ contents,
       read file = Returns contents
       ∧ get_supabase_client supabase = failure string)
  ∨ (∃ contents bucket,
       read file = Returns contents
       ∧ get_supabase_client supabase = Returns bucket
       ∧ upload supabase bucket name contents = failure unit)
  ∨ (∃ contents bucket,
       read file = Returns contents
       ∧ get_supabase_client supabase = Returns bucket
       ∧ upload supabase bucket name contents = Returns ()
       ∧ get_public_url supabase bucket name = failure string).

Definition is_storage_upload (ev : Event) : bool :=
  match ev with StorageUpload _ _ _ _ _ => true | _ => false end.

Definition is_log_error (ev : Event) : bool :=
  match ev with LogError _ => true | _ => false end.

End Upload.

(** ** The response model: [models.py] *)

(** An instance of [QAResponse]. *)
Record QAResponse : Type := mkQAResponse {
  response_answer : string;
  response_context : string;
  response_plan : option string;
  response_sub_questions : option (list string);
  response_session_id : string
}.

(** The value given for a field declared [str]. *)
Definition as_str (v : option Value) : option string :=
  match v with Some (VStr s) => Some s | _ => None end.

(** The value given for a field declared [str | None]. *)
Definition as_optional_str (v : option Value) : option (option string) :=
  match v with
  | Some (VStr s) => Some (Some s)
  | Some VNone => Some None
  | _ => None
  end.

(** The value given for a field declared [list[str] | None]. *)
Definition as_optional_strs (v : option Value) : option (option (list string)) :=
  match v with
  | Some (VStrs l) => Some (Some l)
  | Some VNone => Some None
  | _ => None
  end.

(** The validation of a dict of fields as a [QAResponse]: every declared
    field is required and must hold a value of its declared type; other
    keys are ignored.  [None] stands for the validation error. *)
Definition QAResponse_validate (fields : gmap string Value) : option QAResponse :=
  a ← as_str (fields !! "answer");
  c ← as_str (fields !! "context");
  p ← as_optional_str (fields !! "plan");
  sq ← as_optional_strs (fields !! "sub_questions");
  sid ← as_str (fields !! "session_id");
  Some {| response_answer := a; response_context := c; response_plan := p;
          response_sub_questions := sq; response_session_id := sid |}.

(** * Properties *)

(** ** Strings *)

Lemma append_nil_l (t : string) : "" +:+ t = t.
Proof. reflexivity. Qed.

Lemma append_cons (a : ascii) (s t : string) :
  String a s +:+ t = String a (s +:+ t).
Proof. reflexivity. Qed.

Lemma startswith_prefix (p s : string) :
  Py.startswith p s = true ↔ ∃ rest, s = p +:+ rest.
Proof.
  revert s. induction p as [|a p IH]; intros s; simpl.
  - split; [intros _; exists s; reflexivity | reflexivity].
  - destruct s as [|b s].
    + split; [discriminate | intros [rest H]; rewrite append_cons in H; discriminate].
    + destruct (Ascii.eqb_spec a b) as [->|Hne].
      * rewrite IH. split; intros [rest H]; exists rest.
        -- rewrite append_cons. by f_equal.
        -- rewrite append_cons in H. by injection H.
      * split; [discriminate|].
        intros [rest H]. rewrite append_cons in H. injection H as E _. congruence.
Qed.


Lemma lstrip_by_decompose (p : ascii → bool) (s : string) :
  ∃ pre, s = pre +:+ Py.lstrip_by p s ∧ all_chars p pre = true.
Proof.
  induction s as [|c s [pre [E Hpre]]]; simpl.
  - by exists "".
  - destruct (p c) eqn:Hc.
    + exists (String c pre). rewrite append_cons, <- E. simpl. by rewrite Hc.
    + by exists "".
Qed.

Lemma lstrip_by_head (p : ascii → bool) (s : string) (c : ascii) (r : string) :
  Py.lstrip_by p s = String c r → p c = false.
Proof.
  induction s as [|d s IH]; simpl; [discriminate|].
  destruct (p d) eqn:Hd; [exact IH|]. intros [= <- _]. exact Hd.
Qed.

Lemma rstrip_by_decompose (p : ascii → bool) (s : string) :
  ∃ post, s = Py.rstrip_by p s +:+ post ∧ all_chars p post = true.
Proof.
  induction s as [|c s [post [E Hpost]]]; simpl.
  - by exists "".
  - destruct (Py.rstrip_by p s) as [|k kept] eqn:Hr.
    + destruct (p c) eqn:Hc.
      * exists (String c post). rewrite append_nil_l in *. subst s.
        simpl. by rewrite Hc.
      * exists post. rewrite append_cons. split; [by f_equal | done].
    + exists post. rewrite append_cons. split; [by f_equal | done].
Qed.

Lemma rstrip_by_head (p : ascii → bool) (s : string) (c : ascii) (r : string) :
  Py.rstrip_by p s = String c r → ∃ r', s = String c r'.
Proof.
  destruct s as [|d s]; simpl; [discriminate|].
  destruct (Py.rstrip_by p s); [destruct (p d)|];
    try discriminate; intros [= <- _]; eauto.
Qed.

Lemma rstrip_by_last (p : ascii → bool) (s r : string) (c : ascii) :
  Py.rstrip_by p s = r +:+ String c "" → p c = false.
Proof.
  revert r. induction s as [|d s IH]; intros r; simpl.
  - destruct r; rewrite ?append_cons; discriminate.
  - destruct (Py.rstrip_by p s) as [|k kept] eqn:Hr.
    + destruct (p d) eqn:Hd.
      * destruct r; rewrite ?append_cons; discriminate.
      * destruct r as [|e r]; rewrite ?append_cons, ?append_nil_l.
        -- by intros [= <-].
        -- intros [= _ H]. destruct r; rewrite ?append_cons in H; discriminate.
    + destruct r as [|e r]; rewrite ?append_cons, ?append_nil_l.
      * discriminate.
      * intros [= _ H]. by apply (IH r).
Qed.

(** What [strip] with a character class does: it removes a prefix and a
    suffix made of characters of the class, and what is left neither
    starts nor ends with such a character. *)
Lemma strip_by_spec (p : ascii → bool) (s : string) :
  (∃ pre post, s = pre +:+ Py.strip_by p s +:+ post
               ∧ all_chars p pre = true ∧ all_chars p post = true)
  ∧ (∀ c r, Py.strip_by p s = String c r → p c = false)
  ∧ (∀ r c, Py.strip_by p s = r +:+ String c "" → p c = false).
Proof.
  unfold Py.strip_by. split; [|split].
  - destruct (lstrip_by_decompose p s) as [pre [E1 H1]].
    destruct (rstrip_by_decompose p (Py.lstrip_by p s)) as [post [E2 H2]].
    exists pre, post. by rewrite <- E2.
  - intros c r H. apply rstrip_by_head in H as [r' H].
    by apply lstrip_by_head in H.
  - intros r c. apply rstrip_by_last.
Qed.

(** ** The plan parser *)

Lemma parse_line_returns (st : Parser.state) (raw : string) :
  ∃ st', Parser.parse_line st raw = Ok st'.
Proof.
  unfold Parser.parse_line.
  destruct (Py.startswith "plan:" (Py.strip raw)); [eauto|].
  destruct (Py.startswith "sub_questions:" (Py.strip raw)); [eauto|].
  destruct (Parser.in_plan st); simpl.
  - destruct (Py.strip raw) as [|c line] eqn:Hline; simpl.
    + destruct (Parser.in_subq st && _); eauto.
    + destruct (Py.isdigit c); [eauto|].
      destruct (Parser.in_subq st && _); eauto.
  - destruct (Parser.in_subq st && _); eauto.
Qed.

Lemma parse_lines_returns (lines : list string) (st : Parser.state) :
  ∃ st', Parser.parse_lines st lines = Ok st'.
Proof.
  revert st. induction lines as [|raw rest IH]; intros st; simpl; [eauto|].
  destruct (parse_line_returns st raw) as [st' ->]. simpl. apply IH.
Qed.

Lemma parse_line_outside_sections (st : Parser.state) (raw : string) :
  Parser.in_plan st = false → Parser.in_subq st = false → no_marker raw →
  Parser.parse_line st raw = Ok st.
Proof.
  intros Hp Hs [H1 H2]. unfold Parser.subq_header in H2. rewrite H1 in H2.
  unfold Parser.plan_header in H1. cbn [negb andb] in H2.
  unfold Parser.parse_line. by rewrite H1, H2, Hp, Hs.
Qed.

Lemma parse_lines_outside_sections (lines : list string) (st : Parser.state) :
  Parser.in_plan st = false → Parser.in_subq st = false →
  Forall no_marker lines → Parser.parse_lines st lines = Ok st.
Proof.
  intros Hp Hs. induction 1 as [|raw rest Hraw _ IH]; simpl; [done|].
  by rewrite parse_line_outside_sections.
Qed.


Lemma digit_line_not_header (c : ascii) (rest : string) :
  Py.isdigit c = true →
  Py.startswith "plan:" (String c rest) = false
  ∧ Py.startswith "sub_questions:" (String c rest) = false.
Proof.
  intros Hc. cbn [Py.startswith].
  split.
  - destruct (Ascii.eqb_spec "p" c) as [<-|]; [discriminate Hc | done].
  - destruct (Ascii.eqb_spec "s" c) as [<-|]; [discriminate Hc | done].
Qed.

Lemma dash_line_not_header (line : string) :
  Py.startswith "-" line = true →
  Py.startswith "plan:" line = false
  ∧ Py.startswith "sub_questions:" line = false
  ∧ ∃ rest, line = String "-" rest.
Proof.
  intros [rest ->]%startswith_prefix. rewrite append_cons, append_nil_l.
  repeat split; eauto.
Qed.

(** The modes after a line, in terms of the modes before it. *)
Lemma parse_line_modes (st : Parser.state) (raw : string) :
  ∃ st', Parser.parse_line st raw = Ok st'
    ∧ (Parser.in_plan st', Parser.in_subq st') =
        if Parser.plan_header (Py.strip raw) then (true, false)
        else if Parser.subq_header (Py.strip raw) then (false, true)
        else (Parser.in_plan st, Parser.in_subq st).
Proof.
  unfold Parser.parse_line, Parser.subq_header, Parser.plan_header.
  destruct (Py.startswith "plan:" (Py.strip raw)); [eauto|].
  destruct (Py.startswith "sub_questions:" (Py.strip raw)); [eauto|].
  cbn [negb andb].
  destruct (Parser.in_plan st) eqn:Hp; simpl.
  - destruct (Py.strip raw) as [|c line] eqn:Hline; simpl.
    + destruct (Parser.in_subq st && _); rewrite <- ?Hp; eauto.
    + destruct (Py.isdigit c); [rewrite <- ?Hp; eauto|].
      destruct (Parser.in_subq st && _); rewrite <- ?Hp; eauto.
  - destruct (Parser.in_subq st && _); rewrite <- ?Hp; eauto.
Qed.


(** C2, as the code has it. A line opens plan mode and closes
    sub-question mode exactly when, trimmed, it starts with the plan
    header, and does the inverse exactly when, trimmed, it starts with
    the sub-question header; every other line leaves both modes as they
    were. Text after a header on the same line does not prevent the
    switch; a header that is not at the start of the trimmed line is no
    switch. *)
Theorem mode_switch_on_header_prefix (st : Parser.state) (raw : string) :
  (∃ st', Parser.parse_line st raw = Ok st'
     ∧ (Parser.in_plan st', Parser.in_subq st') =
         if Parser.plan_header (Py.strip raw) then (true, false)
         else if Parser.subq_header (Py.strip raw) then (false, true)
         else (Parser.in_plan st, Parser.in_subq st))
  ∧ (Parser.plan_header (Py.strip raw) = true
     ↔ ∃ rest, Py.strip raw = "plan:" +:+ rest)
  ∧ (Parser.subq_header (Py.strip raw) = true
     ↔ ∃ rest, Py.strip raw = "sub_questions:" +:+ rest).
Proof.
  split; [apply parse_line_modes|]. split.
  - apply startswith_prefix.
  - unfold Parser.subq_header, Parser.plan_header.
    rewrite <- startswith_prefix.
    destruct (Py.startswith "sub_questions:" (Py.strip raw)) eqn:Hs.
    + destruct (Py.strip raw) as [|c line]; [discriminate Hs|].
      cbn [Py.startswith] in *.
      destruct (Ascii.eqb_spec "s" c) as [<-|]; [done | discriminate Hs].
    + by rewrite andb_false_r.
Qed.

(** C2, as stated, fails: a header followed by text on its line switches
    the mode, although the trimmed line is not equal to the header. *)
Lemma header_followed_by_text_switches :
  Py.strip "plan: find sources" ≠ "plan:"
  ∧ Parser.parse_line Sample.in_subq_mode "plan: find sources"
    = Ok Sample.in_plan_mode
  ∧ Py.strip "sub_questions: two of them" ≠ "sub_questions:"
  ∧ Parser.parse_line Sample.in_plan_mode "sub_questions: two of them"
    = Ok Sample.in_subq_mode.
Proof. repeat split; discriminate. Qed.

(** C8, as the code has it. In sub-question mode a line that, trimmed,
    starts with a dash is appended to the sub-questions after every
    leading and trailing dash and space is removed, and then every
    leading and trailing double quote. In plan mode a line that,
    trimmed, is non-empty and starts with a digit is appended to the plan
    in its trimmed form. On the sample output the parser returns the two
    numbered lines joined by a newline and the sub-questions x and y. *)
Theorem collected_entries (st : Parser.state) (raw : string) :
  (Parser.in_subq st = true → Py.startswith "-" (Py.strip raw) = true →
   Parser.parse_line st raw =
     Ok {| Parser.plan_lines := Parser.plan_lines st;
           Parser.sub_questions :=
             Parser.sub_questions st
             ++ [Py.strip_chars Py.dquote (Py.strip_chars "- " (Py.strip raw))];
           Parser.in_plan := Parser.in_plan st;
           Parser.in_subq := Parser.in_subq st |})
  ∧ (Parser.in_plan st = true →
     ∀ c rest, Py.strip raw = String c rest → Py.isdigit c = true →
     Parser.parse_line st raw =
       Ok {| Parser.plan_lines := Parser.plan_lines st ++ [Py.strip raw];
             Parser.sub_questions := Parser.sub_questions st;
             Parser.in_plan := Parser.in_plan st;
             Parser.in_subq := Parser.in_subq st |})
  ∧ (∃ pre post,
       Py.strip raw = pre +:+ Py.strip_chars "- " (Py.strip raw) +:+ post
       ∧ all_chars (λ c, Py.mem c "- ") pre = true
       ∧ all_chars (λ c, Py.mem c "- ") post = true)
  ∧ _parse_plan_and_subquestions Sample.planner_output
    = Ok (Some ("1. A" +:+ Py.nl +:+ "2. B"), Some ["x"; "y"]).
Proof.
  split; [|split; [|split]].
  - intros Hs Hdash. unfold Parser.parse_line, Parser.clean_query.
    destruct (dash_line_not_header _ Hdash) as (-> & -> & rest & Hline).
    rewrite Hs, Hdash. rewrite Hline.
    by destruct (Parser.in_plan st).
  - intros Hp c rest Hline Hc. unfold Parser.parse_line.
    rewrite Hline.
    destruct (digit_line_not_header c rest Hc) as [-> ->].
    rewrite Hp. simpl. by rewrite Hc.
  - apply strip_by_spec.
  - vm_compute. reflexivity.
Qed.

Lemma collected_entries_witness :
  Parser.parse_line Sample.in_subq_mode "  - k-NN search -  " =
    Ok {| Parser.plan_lines := []; Parser.sub_questions := ["k-NN search"];
          Parser.in_plan := false; Parser.in_subq := true |}
  ∧ Parser.parse_line Sample.in_plan_mode " 2. B " =
    Ok {| Parser.plan_lines := ["2. B"]; Parser.sub_questions := [];
          Parser.in_plan := true; Parser.in_subq := false |}.
Proof.
  destruct (collected_entries Sample.in_subq_mode "  - k-NN search -  ") as [H _].
  destruct (collected_entries Sample.in_plan_mode " 2. B ") as (_ & H' & _ & _).
  split.
  - apply H; reflexivity.
  - apply (H' eq_refl "2"%char ". B"); reflexivity.
Defined.

(** C8, as stated, fails: a trailing dash of a sub-question is removed
    too, not only the leading dash and space. *)
Lemma trailing_dash_is_stripped :
  Parser.parse_line Sample.in_subq_mode "- k-NN search -" =
    Ok {| Parser.plan_lines := []; Parser.sub_questions := ["k-NN search"];
          Parser.in_plan := false; Parser.in_subq := true |}
  ∧ clean_query_leading_only "- k-NN search -" = "k-NN search -"
  ∧ "k-NN search" ≠ "k-NN search -".
Proof. repeat split; discriminate. Qed.

(** ** The Plan stage *)

Lemma last_n_split {A : Type} (n : nat) (l : list A) :
  ∃ older, l = older ++ last_n n l ∧ length (last_n n l) = min n (length l).
Proof.
  exists (take (length l - n) l). unfold last_n. split.
  - by rewrite take_drop.
  - rewrite length_drop. lia.
Qed.

(** C3, as the code has it. The Plan stage sends the planning agent the
    last six entries of the history (all of it when it has fewer), each
    user entry as a human message, each assistant entry as an AI message
    and any other entry dropped, followed by the question as a human
    message. Older entries are not sent. *)
Theorem planner_reads_last_six_entries (state : QAState) :
  ∃ older window,
    messages state = older ++ window
    ∧ length window = min 6 (length (messages state))
    ∧ planner_messages state
      = concat (map to_agent_messages window) ++ [HumanMessage (question state)]
    ∧ (∀ m, (role m = "user" → to_agent_messages m = [HumanMessage (content m)])
            ∧ (role m = "assistant" → to_agent_messages m = [AIMessage (content m)])
            ∧ (role m ≠ "user" → role m ≠ "assistant" → to_agent_messages m = []))
    ∧ (∀ agent e,
         agent (concat (map to_agent_messages window)
                ++ [HumanMessage (question state)]) = Raised e →
         planner_node agent state = Raised e).
Proof.
  destruct (last_n_split 6 (messages state)) as [older [E Hlen]].
  exists older, (last_n 6 (messages state)).
  split; [done|]. split; [done|]. split; [done|]. split.
  - intros m. unfold to_agent_messages. repeat split.
    + by intros ->.
    + by intros ->.
    + intros H1 H2. apply String.eqb_neq in H1, H2. by rewrite H1, H2.
  - intros agent e H. unfold planner_node, planner_messages. by rewrite H.
Qed.

(** C3, as stated, fails: with four earlier turns and the question in
    the history, the first turn and the question of the second are not
    sent, although they are within the last six turns. *)
Lemma planner_window_is_six_entries_not_six_turns :
  planner_messages
    (Sample.state_with "q5"
       (Sample.turn "q1" "a1" ++ Sample.turn "q2" "a2" ++ Sample.turn "q3" "a3"
        ++ Sample.turn "q4" "a4" ++ [user_entry "q5"]))
  = [AIMessage "a2"; HumanMessage "q3"; AIMessage "a3"; HumanMessage "q4";
     AIMessage "a4"; HumanMessage "q5"; HumanMessage "q5"]
  ∧ planner_messages_six_turns
      (Sample.state_with "q5"
         (Sample.turn "q1" "a1" ++ Sample.turn "q2" "a2" ++ Sample.turn "q3" "a3"
          ++ Sample.turn "q4" "a4" ++ [user_entry "q5"]))
    = [HumanMessage "q1"; AIMessage "a1"; HumanMessage "q2"; AIMessage "a2";
       HumanMessage "q3"; AIMessage "a3"; HumanMessage "q4"; AIMessage "a4";
       HumanMessage "q5"; HumanMessage "q5"].
Proof. split; reflexivity. Qed.

(** ** The Retrieve stage *)

Lemma head_filter_skip {A : Type} (P : A → Prop) `{!∀ x, Decision (P x)}
    (skipped : list A) (a : A) (rest : list A) :
  Forall (λ x, ¬ P x) skipped → P a →
  head (filter P (skipped ++ a :: rest)) = Some a.
Proof.
  intros Hskip Ha. induction Hskip as [|x skipped Hx _ IH]; simpl.
  - by rewrite filter_cons_True.
  - by rewrite filter_cons_False.
Qed.

Lemma last_assistant_found (older : list Message) (a : Message) (newer : list Message) :
  is_assistant a → Forall (λ m, ¬ is_assistant m) newer →
  last_assistant_content (older ++ a :: newer) = Some (content a).
Proof.
  intros Ha Hnewer. unfold last_assistant_content.
  rewrite reverse_app, reverse_cons, <- app_assoc. simpl.
  rewrite (head_filter_skip is_assistant); [done | | done].
  by apply Forall_reverse.
Qed.

Lemma last_assistant_absent (history : list Message) :
  Forall (λ m, ¬ is_assistant m) history →
  last_assistant_content history = None.
Proof.
  intros H. unfold last_assistant_content.
  apply Forall_reverse in H.
  induction H as [|x l Hx _ IH]; simpl; [done|].
  by rewrite filter_cons_False.
Qed.

(** A history has no assistant entry, or it has a last one. *)
Lemma last_assistant_split (history : list Message) :
  Forall (λ m, ¬ is_assistant m) history
  ∨ ∃ older a newer, history = older ++ a :: newer ∧ is_assistant a
                     ∧ Forall (λ m, ¬ is_assistant m) newer.
Proof.
  induction history as [|m history IH].
  - by left.
  - destruct IH as [Hnone | (older & a & newer & -> & Ha & Hnewer)].
    + destruct (decide (is_assistant m)) as [Hm|Hm].
      * right. by exists [], m, history.
      * left. by constructor.
    + right. by exists (m :: older), a, newer.
Qed.

Lemma take_is_prefix (n : nat) (s : string) :
  ∃ rest, s = Py.take n s +:+ rest
          ∧ String.length (Py.take n s) = min n (String.length s).
Proof.
  revert s. induction n as [|n IH]; intros s; simpl.
  - by exists s.
  - destruct s as [|c s]; simpl.
    + by exists "".
    + destruct (IH s) as [rest [E Hlen]]. exists rest.
      rewrite append_cons. split; [by f_equal | by rewrite Hlen].
Qed.

(** C4, as the code has it. The query text of the Retrieve stage is the
    continuity note, then the question, the plan and the sub-questions
    under their headings. The sub-questions are rendered one per line,
    each after a dash and a space, or as the marker None when there are
    none. The note is present exactly when the history has two entries
    or more and its last assistant entry exists and has a non-empty
    content; it then quotes the first 200 characters of that content. *)
Theorem retrieval_query_parts (state : QAState) :
  ∃ note subqs_text,
    retrieval_query state
    = note +:+ "Question: " +:+ question state
      +:+ Py.nl +:+ Py.nl +:+ "Plan:" +:+ Py.nl +:+ Py.fmt_opt (plan state)
      +:+ Py.nl +:+ Py.nl +:+ "Sub-Questions:" +:+ Py.nl +:+ subqs_text
    ∧ (sub_questions state = None → subqs_text = "None")
    ∧ (sub_questions state = Some [] → subqs_text = "None")
    ∧ (∀ q qs, sub_questions state = Some (q :: qs) →
               subqs_text = Py.join Py.nl (map (λ sq, "- " +:+ sq) (q :: qs)))
    ∧ ((Forall (λ m, ¬ is_assistant m) (messages state) ∧ note = "")
       ∨ (∃ older a newer excerpt rest,
            messages state = older ++ a :: newer
            ∧ is_assistant a ∧ Forall (λ m, ¬ is_assistant m) newer
            ∧ content a = excerpt +:+ rest
            ∧ String.length excerpt = min 200 (String.length (content a))
            ∧ note = if (2 <=? length (messages state))%nat && Py.truthy (content a)
                     then Py.nl +:+ "[Previous answer excerpt: " +:+ excerpt
                          +:+ "...]" +:+ Py.nl
                     else "")).
Proof.
  exists (context_note (messages state)), (formatted_subqs (sub_questions state)).
  split; [done|]. split; [by intros ->|]. split; [by intros ->|].
  split; [by intros q qs ->|].
  destruct (last_assistant_split (messages state))
    as [Hnone | (older & a & newer & E & Ha & Hnewer)].
  - left. split; [done|]. unfold context_note.
    rewrite (last_assistant_absent _ Hnone). by destruct (2 <=? _)%nat.
  - right. destruct (take_is_prefix 200 (content a)) as [rest [Hrest Hlen]].
    exists older, a, newer, (Py.take 200 (content a)), rest.
    repeat (split; [done|]).
    unfold context_note. rewrite E at 2.
    rewrite (last_assistant_found older a newer Ha Hnewer).
    destruct (2 <=? _)%nat; [|done]. by destruct (Py.truthy (content a)).
Qed.

(** C4, as stated, fails: with a single earlier turn in the history the
    note is already present. *)
Lemma one_prior_turn_gives_hint :
  retrieval_query
    (Sample.state_with "q2" (Sample.turn "q1" "a1" ++ [user_entry "q2"]))
  = Py.nl +:+ "[Previous answer excerpt: a1...]" +:+ Py.nl
    +:+ "Question: q2" +:+ Py.nl +:+ Py.nl +:+ "Plan:" +:+ Py.nl +:+ "None"
    +:+ Py.nl +:+ Py.nl +:+ "Sub-Questions:" +:+ Py.nl +:+ "None".
Proof. reflexivity. Qed.

Lemma first_tool_content_skip (skipped rest : list BaseMessage) :
  (∀ text, ToolMessage text ∉ skipped) →
  first_tool_content (skipped ++ rest) = first_tool_content rest.
Proof.
  induction skipped as [|m skipped IH]; intros H; simpl; [done|].
  destruct m as [t|t|t|t]; try (apply IH; intros text Hin; apply (H text); by right).
  exfalso. apply (H t). by left.
Qed.

(** C6. When the retrieval agent answers, the Retrieve stage returns as
    context the content of the last tool message of the answer, and the
    empty string when the answer has no tool message. *)
Theorem retrieval_context_is_last_tool_result
    (agent : Agent) (state : QAState) (result : AgentResult) :
  agent [HumanMessage (retrieval_query state)] = Ok result →
  ∃ u, retrieval_node agent state = Ok u
       ∧ ((∀ text, ToolMessage text ∉ get_messages result) →
          upd_context u = Some (Some ""))
       ∧ (∀ before text after,
            get_messages result = before ++ ToolMessage text :: after →
            (∀ later, ToolMessage later ∉ after) →
            upd_context u = Some (Some text)).
Proof.
  intros Hagent. unfold retrieval_node. rewrite Hagent. simpl.
  eexists. split; [reflexivity|]. simpl. unfold last_tool_content. split.
  - intros Hnone. do 2 f_equal.
    rewrite <- (app_nil_r (reverse _)), first_tool_content_skip; [done|].
    intros text Hin. rewrite elem_of_reverse in Hin. by apply (Hnone text).
  - intros before text after -> Hafter. do 2 f_equal.
    rewrite reverse_app, reverse_cons, <- app_assoc.
    rewrite first_tool_content_skip; [done|].
    intros later Hin. rewrite elem_of_reverse in Hin. by apply (Hafter later).
Qed.

Lemma retrieval_context_is_last_tool_result_witness :
  ∃ u, retrieval_node (retrieval_agent Sample.agents) (Sample.state_with "q" []) = Ok u
       ∧ upd_context u = Some (Some "Vector databases store embeddings").
Proof.
  destruct (retrieval_context_is_last_tool_result
              (retrieval_agent Sample.agents) (Sample.state_with "q" [])
              {| result_messages :=
                   Some [AIMessage "searching"; ToolMessage "first lookup";
                         ToolMessage "Vector databases store embeddings";
                         AIMessage "done"] |} eq_refl)
    as (u & Hu & _ & Hlast).
  exists u. split; [exact Hu|].
  apply (Hlast [AIMessage "searching"; ToolMessage "first lookup"]
               "Vector databases store embeddings" [AIMessage "done"] eq_refl).
  intros later Hin. apply list_elem_of_singleton in Hin. discriminate Hin.
Defined.

(** ** What the nodes return *)

Lemma first_ai_content_skip (skipped rest : list BaseMessage) :
  (∀ text, AIMessage text ∉ skipped) →
  first_ai_content (skipped ++ rest) = first_ai_content rest.
Proof.
  induction skipped as [|m skipped IH]; intros H; simpl; [done|].
  destruct m as [t|t|t|t]; try (apply IH; intros text Hin; apply (H text); by right).
  exfalso. apply (H t). by left.
Qed.

Lemma extract_without_ai (msgs : list BaseMessage) :
  (∀ text, AIMessage text ∉ msgs) → _extract_last_ai_content msgs = "".
Proof.
  intros H. unfold _extract_last_ai_content.
  rewrite <- (app_nil_r (reverse msgs)), first_ai_content_skip; [done|].
  intros text Hin. rewrite elem_of_reverse in Hin. by apply (H text).
Qed.

Lemma parse_returns (content : string) :
  ∃ parsed, _parse_plan_and_subquestions content = Ok parsed.
Proof.
  unfold _parse_plan_and_subquestions, Parser.collect.
  destruct (negb (Py.truthy content)); [eauto|].
  destruct (parse_lines_returns (Py.split_on (ascii_of_nat 10) content) Parser.init)
    as [st ->]. simpl. eauto.
Qed.

Lemma planner_node_inv (agent : Agent) (state : QAState) (u : QAUpdate) :
  planner_node agent state = Ok u →
  ∃ new_plan new_subqs,
    u = {| upd_question := None; upd_plan := Some new_plan;
           upd_sub_questions := Some new_subqs; upd_context := None;
           upd_draft_answer := None; upd_answer := None; upd_messages := None |}.
Proof.
  unfold planner_node. destruct (agent _) as [result|e]; [simpl|discriminate].
  destruct (_parse_plan_and_subquestions _) as [parsed|e]; [simpl|discriminate].
  intros [= <-]. eauto.
Qed.

Lemma retrieval_node_inv (agent : Agent) (state : QAState) (u : QAUpdate) :
  retrieval_node agent state = Ok u →
  ∃ new_context,
    u = {| upd_question := None; upd_plan := None; upd_sub_questions := None;
           upd_context := Some (Some new_context); upd_draft_answer := None;
           upd_answer := None; upd_messages := None |}.
Proof.
  unfold retrieval_node. destruct (agent _) as [result|e]; [simpl|discriminate].
  intros [= <-]. eauto.
Qed.

Lemma summarization_node_inv (agent : Agent) (state : QAState) (u : QAUpdate) :
  summarization_node agent state = Ok u →
  ∃ result,
    agent [HumanMessage (summarization_query state)] = Ok result
    ∧ u = {| upd_question := None; upd_plan := None; upd_sub_questions := None;
             upd_context := None;
             upd_draft_answer :=
               Some (Some (_extract_last_ai_content (get_messages result)));
             upd_answer := None; upd_messages := None |}.
Proof.
  unfold summarization_node. destruct (agent _) as [result|e]; [simpl|discriminate].
  intros [= <-]. eauto.
Qed.

Lemma verification_node_inv (agent : Agent) (state : QAState) (u : QAUpdate) :
  verification_node agent state = Ok u →
  ∃ result,
    agent [HumanMessage (verification_query state)] = Ok result
    ∧ u = {| upd_question := None; upd_plan := None; upd_sub_questions := None;
             upd_context := None; upd_draft_answer := None;
             upd_answer :=
               Some (Some (_extract_last_ai_content (get_messages result)));
             upd_messages :=
               Some [{| role := "assistant";
                        content := _extract_last_ai_content (get_messages result) |}] |}.
Proof.
  unfold verification_node. destruct (agent _) as [result|e]; [simpl|discriminate].
  intros [= <-]. eauto.
Qed.

Lemma succeeds_returns {A : Type} (m : outcome A) : succeeds m → ∃ a, m = Ok a.
Proof. destruct m; [eauto | done]. Qed.

Lemma planner_node_returns (agent : Agent) (state : QAState) :
  succeeds (agent (planner_messages state)) → ∃ u, planner_node agent state = Ok u.
Proof.
  intros [result H]%succeeds_returns. unfold planner_node. rewrite H. simpl.
  destruct (parse_returns (_extract_last_ai_content (get_messages result)))
    as [parsed ->]. simpl. eauto.
Qed.

Lemma retrieval_node_returns (agent : Agent) (state : QAState) :
  succeeds (agent [HumanMessage (retrieval_query state)]) →
  ∃ u, retrieval_node agent state = Ok u.
Proof.
  intros [result H]%succeeds_returns. unfold retrieval_node. rewrite H. simpl. eauto.
Qed.

Lemma summarization_node_returns (agent : Agent) (state : QAState) :
  succeeds (agent [HumanMessage (summarization_query state)]) →
  ∃ u, summarization_node agent state = Ok u.
Proof.
  intros [result H]%succeeds_returns. unfold summarization_node. rewrite H. simpl. eauto.
Qed.

Lemma verification_node_returns (agent : Agent) (state : QAState) :
  succeeds (agent [HumanMessage (verification_query state)]) →
  ∃ u, verification_node agent state = Ok u.
Proof.
  intros [result H]%succeeds_returns. unfold verification_node. rewrite H. simpl. eauto.
Qed.

(** C9. Of the dicts the four nodes return, only the one of the Verify
    stage has the key messages, and it holds one assistant entry whose
    content is the answer; none has the key question. Each node returns
    when its agent answers. *)
Theorem only_verification_updates_messages (agents : Agents) (state : QAState) :
  (∀ u, planner_node (planner_agent agents) state = Ok u →
        upd_messages u = None ∧ upd_question u = None)
  ∧ (∀ u, retrieval_node (retrieval_agent agents) state = Ok u →
          upd_messages u = None ∧ upd_question u = None)
  ∧ (∀ u, summarization_node (summarization_agent agents) state = Ok u →
          upd_messages u = None ∧ upd_question u = None)
  ∧ (∀ u, verification_node (verification_agent agents) state = Ok u →
          upd_question u = None
          ∧ ∃ a, upd_answer u = Some (Some a)
                 ∧ upd_messages u = Some [{| role := "assistant"; content := a |}])
  ∧ (agents_respond agents →
     (∃ u, planner_node (planner_agent agents) state = Ok u)
     ∧ (∃ u, retrieval_node (retrieval_agent agents) state = Ok u)
     ∧ (∃ u, summarization_node (summarization_agent agents) state = Ok u)
     ∧ (∃ u, verification_node (verification_agent agents) state = Ok u)).
Proof.
  repeat split.
  - by apply planner_node_inv in H as (? & ? & ->).
  - by apply planner_node_inv in H as (? & ? & ->).
  - by apply retrieval_node_inv in H as (? & ->).
  - by apply retrieval_node_inv in H as (? & ->).
  - by apply summarization_node_inv in H as (? & _ & ->).
  - by apply summarization_node_inv in H as (? & _ & ->).
  - by apply verification_node_inv in H as (? & _ & ->).
  - apply verification_node_inv in H as (? & _ & ->). eauto.
  - apply planner_node_returns, H.
  - apply retrieval_node_returns, H.
  - apply summarization_node_returns, H.
  - apply verification_node_returns, H.
Qed.

Lemma only_verification_updates_messages_witness :
  ∃ u, verification_node (verification_agent Sample.agents)
         (Sample.state_with "q" [user_entry "q"]) = Ok u
       ∧ upd_question u = None
       ∧ ∃ a, upd_answer u = Some (Some a) ∧ upd_messages u = Some [assistant_entry a].
Proof.
  destruct (only_verification_updates_messages Sample.agents
              (Sample.state_with "q" [user_entry "q"])) as (_ & _ & _ & H & _).
  eexists. split; [reflexivity|]. apply H. reflexivity.
Defined.

(** C10. The Summarize stage always returns a string as draft answer and
    the Verify stage a string as answer, never None; when the answer of
    the agent holds no AI message, or no messages at all, that string is
    empty. *)
Theorem answers_are_strings (agent : Agent) (state : QAState) :
  (∀ u, summarization_node agent state = Ok u →
        ∃ s, upd_draft_answer u = Some (Some s))
  ∧ (∀ u, verification_node agent state = Ok u →
          ∃ s, upd_answer u = Some (Some s))
  ∧ (∀ result, agent [HumanMessage (summarization_query state)] = Ok result →
       (∀ text, AIMessage text ∉ get_messages result) →
       ∃ u, summarization_node agent state = Ok u
            ∧ upd_draft_answer u = Some (Some ""))
  ∧ (∀ result, agent [HumanMessage (verification_query state)] = Ok result →
       (∀ text, AIMessage text ∉ get_messages result) →
       ∃ u, verification_node agent state = Ok u
            ∧ upd_answer u = Some (Some "")
            ∧ upd_messages u = Some [{| role := "assistant"; content := "" |}]).
Proof.
  split; [|split; [|split]].
  - intros u (result & _ & ->)%summarization_node_inv. simpl. eauto.
  - intros u (result & _ & ->)%verification_node_inv. simpl. eauto.
  - intros result Hagent Hnone. unfold summarization_node. rewrite Hagent. simpl.
    eexists. split; [reflexivity|]. simpl. by rewrite extract_without_ai.
  - intros result Hagent Hnone. unfold verification_node. rewrite Hagent. simpl.
    eexists. split; [reflexivity|]. simpl. by rewrite extract_without_ai.
Qed.

Lemma answers_are_strings_witness :
  (∃ u, summarization_node Sample.silent (Sample.state_with "q" []) = Ok u
        ∧ upd_draft_answer u = Some (Some ""))
  ∧ (∃ u, verification_node (Sample.replying [HumanMessage "q"; ToolMessage "t"])
            (Sample.state_with "q" []) = Ok u
          ∧ upd_answer u = Some (Some "")
          ∧ upd_messages u = Some [assistant_entry ""]).
Proof.
  split.
  - destruct (answers_are_strings Sample.silent (Sample.state_with "q" []))
      as (_ & _ & H & _).
    apply (H {| result_messages := None |} eq_refl).
    by intros text ?%elem_of_nil.
  - destruct (answers_are_strings
                (Sample.replying [HumanMessage "q"; ToolMessage "t"])
                (Sample.state_with "q" [])) as (_ & _ & _ & H).
    apply (H {| result_messages := Some [HumanMessage "q"; ToolMessage "t"] |} eq_refl).
    by intros text [?|[?|?%elem_of_nil]%elem_of_cons]%elem_of_cons.
Defined.

(** ** The run of the graph *)

Lemma invoke_inv (agents : Agents) (initial_state final_state : QAState) :
  Graph.invoke agents initial_state = Ok final_state →
  ∃ p sq c d a,
    final_state =
      {| question := question initial_state; plan := p; sub_questions := sq;
         context := Some c; draft_answer := Some d; answer := Some a;
         messages := messages initial_state
                     ++ [{| role := "assistant"; content := a |}] |}.
Proof.
  unfold Graph.invoke, Graph.step.
  destruct (planner_node _ _) as [u1|e] eqn:H1; [simpl|discriminate].
  apply planner_node_inv in H1 as (p & sq & ->).
  destruct (retrieval_node _ _) as [u2|e] eqn:H2; [simpl|discriminate].
  apply retrieval_node_inv in H2 as (c & ->).
  destruct (summarization_node _ _) as [u3|e] eqn:H3; [simpl|discriminate].
  apply summarization_node_inv in H3 as (r3 & _ & ->).
  destruct (verification_node _ _) as [u4|e] eqn:H4; [simpl|discriminate].
  apply verification_node_inv in H4 as (r4 & _ & ->).
  intros [= <-]. unfold Graph.merge. simpl. rewrite !app_nil_r. eauto 10.
Qed.

Lemma invoke_returns (agents : Agents) (initial_state : QAState) :
  agents_respond agents → ∃ final_state, Graph.invoke agents initial_state = Ok final_state.
Proof.
  intros H. unfold Graph.invoke, Graph.step.
  destruct (planner_node_returns (planner_agent agents) initial_state) as [u1 ->];
    [apply H | simpl].
  destruct (retrieval_node_returns (retrieval_agent agents)
              (Graph.merge initial_state u1)) as [u2 ->]; [apply H | simpl].
  destruct (summarization_node_returns (summarization_agent agents)
              (Graph.merge (Graph.merge initial_state u1) u2)) as [u3 ->];
    [apply H | simpl].
  destruct (verification_node_returns (verification_agent agents)
              (Graph.merge (Graph.merge (Graph.merge initial_state u1) u2) u3))
    as [u4 ->]; [apply H | simpl]. eauto.
Qed.

Lemma returned_dict_lookup (thread_id : string) (final_state : QAState) :
  let result := <["session_id" := VStr thread_id]> (Graph.values final_state) in
  result !! "session_id" = Some (VStr thread_id)
  ∧ result !! "answer" = Some (opt_value VStr (answer final_state))
  ∧ result !! "draft_answer" = Some (opt_value VStr (draft_answer final_state))
  ∧ result !! "context" = Some (opt_value VStr (context final_state))
  ∧ result !! "plan" = Some (opt_value VStr (plan final_state))
  ∧ result !! "sub_questions" = Some (opt_value VStrs (sub_questions final_state))
  ∧ result !! "question" = Some (VStr (question final_state))
  ∧ result !! "messages" = Some (VMessages (messages final_state)).
Proof. repeat split. Qed.

(** ** Session identifiers *)

Lemma length_append (s t : string) :
  String.length (s +:+ t) = String.length s + String.length t.
Proof.
  induction s as [|c s IH]; [done|]. rewrite append_cons. simpl. by rewrite IH.
Qed.

Lemma append_inj_last (s t : string) (c d : ascii) :
  s +:+ String c "" = t +:+ String d "" → s = t ∧ c = d.
Proof.
  revert t. induction s as [|a s IH]; intros [|b t];
    rewrite ?append_cons, ?append_nil_l.
  - by intros [= ->].
  - intros [= _ H]. destruct t; rewrite ?append_cons in H; discriminate.
  - intros [= _ H]. destruct s; rewrite ?append_cons in H; discriminate.
  - intros [= -> H]. apply IH in H as [-> ->]. done.
Qed.

Lemma hex_fixed_length (width : nat) (n : N) :
  String.length (Uuid.hex_fixed width n) = width.
Proof.
  revert n. induction width as [|w IH]; intros n; simpl; [done|].
  rewrite length_append, IH. simpl. lia.
Qed.

Lemma hex_value_digit (d : N) : (d < 16)%N → hex_value (Uuid.hex_digit d) = d.
Proof.
  intros H. rewrite <- (N2Nat.id d) at 2.
  assert (N.to_nat d < 16) as Hk by lia.
  unfold Uuid.hex_digit. destruct (N.to_nat d) as [|k]; [done|].
  do 15 (destruct k as [|k]; [done|]). lia.
Qed.

Lemma hex_fixed_inj (width : nat) (a b : N) :
  Uuid.hex_fixed width a = Uuid.hex_fixed width b →
  (a mod 16 ^ N.of_nat width = b mod 16 ^ N.of_nat width)%N.
Proof.
  revert a b. induction width as [|w IH]; intros a b; simpl Uuid.hex_fixed.
  - intros _. simpl. by rewrite !N.mod_1_r.
  - intros [H Hd]%append_inj_last. apply IH in H.
    assert (a mod 16 = b mod 16)%N as Hlow.
    { rewrite <- (hex_value_digit (a mod 16)), <- (hex_value_digit (b mod 16)), Hd;
        [done | by apply N.mod_lt..]. }
    rewrite Nat2N.inj_succ, N.pow_succ_r', !N.Div0.mod_mul_r. congruence.
Qed.

Lemma to_str_hex (a b : N) :
  Uuid.to_str a = Uuid.to_str b → Uuid.hex_fixed 32 a = Uuid.hex_fixed 32 b.
Proof.
  unfold Uuid.to_str. cbv zeta.
  pose proof (hex_fixed_length 32 a) as Ha.
  pose proof (hex_fixed_length 32 b) as Hb.
  revert Ha Hb. generalize (Uuid.hex_fixed 32 a) (Uuid.hex_fixed 32 b).
  intros h k Hh Hk.
  do 32 (destruct h as [|? h]; [discriminate Hh|]).
  destruct h; [|discriminate Hh].
  do 32 (destruct k as [|? k]; [discriminate Hk|]).
  destruct k; [|discriminate Hk].
  cbv [String.substring String.append]. intros H. by simplify_eq.
Qed.

Lemma to_str_length (n : N) : String.length (Uuid.to_str n) = 36.
Proof.
  unfold Uuid.to_str. cbv zeta.
  pose proof (hex_fixed_length 32 n) as Hn.
  revert Hn. generalize (Uuid.hex_fixed 32 n). intros h Hh.
  do 32 (destruct h as [|? h]; [discriminate Hh|]).
  by destruct h.
Qed.

(** Distinct UUIDs have distinct texts. *)
Lemma to_str_inj (a b : N) :
  (a < 2 ^ 128)%N → (b < 2 ^ 128)%N → Uuid.to_str a = Uuid.to_str b → a = b.
Proof.
  intros Ha Hb H%to_str_hex%hex_fixed_inj.
  change (16 ^ N.of_nat 32)%N with (2 ^ 128)%N in H.
  by rewrite !N.mod_small in H.
Qed.

Lemma to_str_truthy (n : N) : Py.truthy (Uuid.to_str n) = true.
Proof.
  pose proof (to_str_length n) as H. by destruct (Uuid.to_str n).
Qed.

Lemma thread_id_truthy (session_id : option string) (uuid4 : N) :
  Py.truthy (thread_id_of session_id uuid4) = true.
Proof.
  unfold thread_id_of. destruct session_id as [sid|]; [|apply to_str_truthy].
  destruct (Py.truthy sid) eqn:H; [done | apply to_str_truthy].
Qed.

(** ** The entry point *)

(** What a run that returns has done: the graph ran from the state the
    engine resumes for the thread with the input of the run; the final
    state is returned with the thread identifier and checkpointed. *)
Lemma run_inv (agents : Agents) (uuid4 : N) (checkpoints : Checkpoints)
    (question : string) (session_id : option string)
    (result : gmap string Value) (checkpoints' : Checkpoints) :
  run_qa_flow agents uuid4 checkpoints question session_id
  = Ok (result, checkpoints') →
  let thread_id := thread_id_of session_id uuid4 in
  ∃ final_state a,
    result = <["session_id" := VStr thread_id]> (Graph.values final_state)
    ∧ checkpoints' = <[thread_id := final_state]> checkpoints
    ∧ answer final_state = Some a
    ∧ (∃ c, context final_state = Some c)
    ∧ (∃ d, draft_answer final_state = Some d)
    ∧ messages final_state
      = messages (Graph.resume (checkpoints !! thread_id)
                    {| plan := None; sub_questions := None; question := question;
                       context := None; draft_answer := None; answer := None;
                       messages :=
                         initial_messages (checkpoints !! thread_id) question |})
        ++ [assistant_entry a].
Proof.
  unfold run_qa_flow. cbv zeta.
  destruct (Graph.invoke _ _) as [final_state|e] eqn:Hrun; [simpl|discriminate].
  intros [= <- <-]. apply invoke_inv in Hrun as (p & sq & c & d & a & ->). simpl.
  eexists _, a. repeat split; eauto.
Qed.

Lemma run_returns (agents : Agents) (uuid4 : N) (checkpoints : Checkpoints)
    (question : string) (session_id : option string) :
  agents_respond agents →
  ∃ result checkpoints',
    run_qa_flow agents uuid4 checkpoints question session_id
    = Ok (result, checkpoints').
Proof.
  intros H. unfold run_qa_flow. cbv zeta.
  match goal with |- context [Graph.invoke agents ?init] =>
    destruct (invoke_returns agents init H) as [final_state ->] end.
  simpl. eauto.
Qed.

(** C5, as the code has it. A run returns when the agents answer. What
    it returns holds the keys answer, draft_answer, context, plan,
    sub_questions and session_id. The session identifier returned is
    never empty: it is the one supplied when a non-empty one is
    supplied, and otherwise, when none or an empty one is supplied, the
    36-character text of the UUID drawn for the run, which differs from
    the text of any other UUID. *)
Theorem run_returns_fields_and_session (agents : Agents) (uuid4 : N)
    (checkpoints : Checkpoints) (question : string) (session_id : option string) :
  (agents_respond agents →
   succeeds (run_qa_flow agents uuid4 checkpoints question session_id))
  ∧ (∀ result checkpoints',
       run_qa_flow agents uuid4 checkpoints question session_id
       = Ok (result, checkpoints') →
       Forall (λ key, is_Some (result !! key))
         ["answer"; "draft_answer"; "context"; "plan"; "sub_questions"; "session_id"]
       ∧ ∃ thread_id,
           result !! "session_id" = Some (VStr thread_id)
           ∧ thread_id ≠ ""
           ∧ (∀ sid, session_id = Some sid → sid ≠ "" → thread_id = sid)
           ∧ (session_id = None ∨ session_id = Some "" →
              thread_id = Uuid.to_str uuid4 ∧ String.length thread_id = 36))
  ∧ (∀ other, (uuid4 < 2 ^ 128)%N → (other < 2 ^ 128)%N → other ≠ uuid4 →
              Uuid.to_str other ≠ Uuid.to_str uuid4).
Proof.
  split; [|split].
  - intros H.
    destruct (run_returns agents uuid4 checkpoints question session_id H)
      as (result & checkpoints' & ->). done.
  - intros result checkpoints' Hrun.
    apply run_inv in Hrun as (final_state & a & -> & _).
    split.
    + repeat constructor; by eexists.
    + exists (thread_id_of session_id uuid4). split; [done|]. split; [|split].
      * pose proof (thread_id_truthy session_id uuid4) as H.
        by destruct (thread_id_of session_id uuid4).
      * intros sid -> Hsid. unfold thread_id_of. by destruct sid.
      * intros [-> | ->]; (split; [done | apply (to_str_length uuid4)]).
  - intros other Ha Hb Hne Heq. apply Hne. by apply to_str_inj.
Qed.

Lemma run_returns_fields_and_session_witness :
  ∃ result checkpoints',
    run_qa_flow Sample.agents Sample.uuid_a ∅ "What is a vector database?" (Some "s-1")
    = Ok (result, checkpoints')
    ∧ result !! "session_id" = Some (VStr "s-1")
    ∧ is_Some (result !! "answer") ∧ is_Some (result !! "plan").
Proof.
  destruct (run_returns_fields_and_session Sample.agents Sample.uuid_a ∅
              "What is a vector database?" (Some "s-1")) as (_ & H & _).
  eexists _, _. split; [reflexivity|].
  destruct (H _ _ eq_refl) as (Hkeys & tid & Htid & _ & Hsame & _).
  rewrite (Hsame "s-1" eq_refl) in Htid by discriminate.
  split; [exact Htid|].
  inversion Hkeys as [|? ? Hanswer Hrest]; subst.
  inversion Hrest as [|? ? _ Hrest2]; subst.
  inversion Hrest2 as [|? ? _ Hrest3]; subst.
  inversion Hrest3 as [|? ? Hplan _]; subst.
  split; [exact Hanswer | exact Hplan].
Defined.

(** C5, as stated, fails: an empty session identifier supplied by the
    caller is not returned; the run generates one. *)
Lemma empty_session_id_is_replaced :
  ∃ result checkpoints',
    run_qa_flow Sample.agents Sample.uuid_a ∅ "What is a vector database?" (Some "")
    = Ok (result, checkpoints')
    ∧ result !! "session_id" = Some (VStr "00000000-0000-4000-8000-000000000007")
    ∧ result !! "session_id" ≠ Some (VStr "").
Proof. eexists _, _. split; [reflexivity|]. split; [reflexivity | discriminate]. Qed.

(** The history a run returns, from the history checkpointed for its
    thread. *)
Lemma run_history (agents : Agents) (uuid4 : N) (checkpoints : Checkpoints)
    (question : string) (session_id : option string)
    (result : gmap string Value) (checkpoints' : Checkpoints) :
  run_qa_flow agents uuid4 checkpoints question session_id
  = Ok (result, checkpoints') →
  ∃ final_state a,
    checkpoints' = <[thread_id_of session_id uuid4 := final_state]> checkpoints
    ∧ result !! "answer" = Some (VStr a)
    ∧ result !! "session_id" = Some (VStr (thread_id_of session_id uuid4))
    ∧ result !! "messages" = Some (VMessages (messages final_state))
    ∧ messages final_state
      = match checkpoints !! thread_id_of session_id uuid4 with
        | Some checkpointed => messages checkpointed
        | None => []
        end
        ++ initial_messages (checkpoints !! thread_id_of session_id uuid4) question
        ++ [{| role := "assistant"; content := a |}].
Proof.
  intros Hrun.
  apply run_inv in Hrun as (final_state & a & -> & -> & Ha & _ & _ & Hm).
  exists final_state, a. split; [done|]. split; [|split; [done|split; [done|]]].
  - change (Some (opt_value VStr (answer final_state)) = Some (VStr a)).
    by rewrite Ha.
  - rewrite Hm. simpl. by rewrite <- app_assoc.
Qed.

(** C1. On a thread without checkpoint, a run that returns gives as
    history the question as a user entry followed by the answer as an
    assistant entry. A second run on the same thread that returns does
    not append two entries to it: the history it gives is the first
    history, then the first history once more followed by the second
    question, which is the input the second run was given, and then the
    second answer, six entries in all. Both runs return when the agents
    answer. *)
Theorem second_run_repeats_history (agents1 agents2 : Agents) (uuid1 uuid2 : N)
    (checkpoints : Checkpoints) (question1 question2 : string)
    (session_id : option string) :
  checkpoints !! thread_id_of session_id uuid1 = None →
  (agents_respond agents1 → agents_respond agents2 →
   ∃ r1 cps1 r2 cps2,
     run_qa_flow agents1 uuid1 checkpoints question1 session_id = Ok (r1, cps1)
     ∧ run_qa_flow agents2 uuid2 cps1 question2
         (Some (thread_id_of session_id uuid1)) = Ok (r2, cps2))
  ∧ (∀ r1 cps1,
       run_qa_flow agents1 uuid1 checkpoints question1 session_id = Ok (r1, cps1) →
       ∃ a1,
         r1 !! "answer" = Some (VStr a1)
         ∧ r1 !! "messages"
           = Some (VMessages [{| role := "user"; content := question1 |};
                              {| role := "assistant"; content := a1 |}])
         ∧ ∀ r2 cps2,
             run_qa_flow agents2 uuid2 cps1 question2
               (Some (thread_id_of session_id uuid1)) = Ok (r2, cps2) →
             ∃ a2,
               r2 !! "answer" = Some (VStr a2)
               ∧ r2 !! "session_id" = r1 !! "session_id"
               ∧ r2 !! "messages"
                 = Some (VMessages [{| role := "user"; content := question1 |};
                                    {| role := "assistant"; content := a1 |};
                                    {| role := "user"; content := question1 |};
                                    {| role := "assistant"; content := a1 |};
                                    {| role := "user"; content := question2 |};
                                    {| role := "assistant"; content := a2 |}])).
Proof.
  intros Hfresh. split.
  - intros H1 H2.
    destruct (run_returns agents1 uuid1 checkpoints question1 session_id H1)
      as (r1 & cps1 & E1).
    destruct (run_returns agents2 uuid2 cps1 question2
                (Some (thread_id_of session_id uuid1)) H2) as (r2 & cps2 & E2).
    by exists r1, cps1, r2, cps2.
  - intros r1 cps1 Hrun1.
    apply run_history in Hrun1 as (final1 & a1 & -> & Ha1 & Hs1 & Hr1 & Hm1).
    rewrite Hfresh in Hm1. simpl in Hm1.
    exists a1. split; [done|]. split; [by rewrite Hr1, Hm1|].
    intros r2 cps2 Hrun2.
    apply run_history in Hrun2 as (final2 & a2 & _ & Ha2 & Hs2 & Hr2 & Hm2).
    assert (thread_id_of (Some (thread_id_of session_id uuid1)) uuid2
            = thread_id_of session_id uuid1) as Htid.
    { unfold thread_id_of at 1. by rewrite thread_id_truthy. }
    rewrite Htid in Hm2, Hs2. rewrite lookup_insert_eq in Hm2.
    unfold initial_messages in Hm2. rewrite !Hm1 in Hm2. simpl in Hm2.
    exists a2. split; [done|]. split; [by rewrite Hs2, Hs1|].
    by rewrite Hr2, Hm2.
Qed.

Lemma second_run_repeats_history_witness :
  ∃ r1 cps1 r2 cps2 a1 a2,
    run_qa_flow Sample.agents Sample.uuid_a ∅ "What is a vector database?" None
    = Ok (r1, cps1)
    ∧ run_qa_flow Sample.agents Sample.uuid_b cps1 "And an index?"
        (Some "00000000-0000-4000-8000-000000000007") = Ok (r2, cps2)
    ∧ r1 !! "messages"
      = Some (VMessages
                [{| role := "user"; content := "What is a vector database?" |};
                 {| role := "assistant"; content := a1 |}])
    ∧ r2 !! "messages"
      = Some (VMessages
                [{| role := "user"; content := "What is a vector database?" |};
                 {| role := "assistant"; content := a1 |};
                 {| role := "user"; content := "What is a vector database?" |};
                 {| role := "assistant"; content := a1 |};
                 {| role := "user"; content := "And an index?" |};
                 {| role := "assistant"; content := a2 |}]).
Proof.
  destruct (second_run_repeats_history Sample.agents Sample.agents
              Sample.uuid_a Sample.uuid_b ∅
              "What is a vector database?" "And an index?" None
              (lookup_empty _))
    as [_ H].
  destruct (H _ _ eq_refl) as (a1 & _ & Hm1 & H2).
  destruct (H2 _ _ eq_refl) as (a2 & _ & _ & Hm2).
  eexists _, _, _, _, a1, a2.
  split; [reflexivity|]. split; [reflexivity|].
  split; [exact Hm1 | exact Hm2].
Defined.

(** * Further properties *)

(** ** More on strings *)

Lemma mem_append (c : ascii) (a b : string) :
  Py.mem c (a +:+ b) = Py.mem c a || Py.mem c b.
Proof.
  induction a as [|d a IH]; [done|]. rewrite append_cons. simpl.
  by destruct (Ascii.eqb c d).
Qed.

Lemma mem_strip_by (p : ascii → bool) (c : ascii) (s : string) :
  Py.mem c s = false → Py.mem c (Py.strip_by p s) = false.
Proof.
  destruct (strip_by_spec p s) as [(pre & post & E & _) _].
  rewrite E at 1. rewrite !mem_append.
  intros H. apply orb_false_elim in H as [_ H].
  by apply orb_false_elim in H as [H _].
Qed.

Lemma lstrip_by_id (p : ascii → bool) (s : string) :
  (∀ c r, s = String c r → p c = false) → Py.lstrip_by p s = s.
Proof.
  destruct s as [|c s]; [done|]. intros H. simpl. by rewrite (H c s).
Qed.

Lemma rstrip_by_id (p : ascii → bool) (s : string) :
  (∀ r c, s = r +:+ String c "" → p c = false) → Py.rstrip_by p s = s.
Proof.
  induction s as [|a s IH]; [done|]. intros H. simpl.
  rewrite IH.
  - destruct s as [|k kept]; [|done]. by rewrite (H "" a).
  - intros r c ->. apply (H (String a r) c). by rewrite append_cons.
Qed.

(** Stripping twice with the same class is stripping once. *)
Lemma strip_by_idem (p : ascii → bool) (s : string) :
  Py.strip_by p (Py.strip_by p s) = Py.strip_by p s.
Proof.
  destruct (strip_by_spec p s) as (_ & Hhead & Hlast).
  unfold Py.strip_by at 1. rewrite lstrip_by_id by exact Hhead.
  by apply rstrip_by_id.
Qed.

Lemma split_on_single_line (sep : ascii) (s : string) :
  Forall (λ piece, Py.mem sep piece = false) (Py.split_on sep s).
Proof.
  induction s as [|c s IH]; simpl.
  - by constructor.
  - destruct (Ascii.eqb c sep) eqn:Hc.
    + by constructor.
    + destruct (Py.split_on sep s) as [|piece pieces].
      * constructor; [|done]. simpl. by rewrite Ascii.eqb_sym, Hc.
      * inversion IH as [|? ? Hpiece Hpieces]; subst.
        constructor; [|done]. simpl. by rewrite Ascii.eqb_sym, Hc.
Qed.

(** Splitting at a separator that ends a first part. *)
Lemma split_on_app (sep : ascii) (a b : string) :
  Py.split_on sep (a +:+ String sep b) = Py.split_on sep a ++ Py.split_on sep b.
Proof.
  induction a as [|c a IH].
  - rewrite append_nil_l. simpl. by rewrite Ascii.eqb_refl.
  - rewrite append_cons. simpl. rewrite IH.
    destruct (Ascii.eqb c sep); [done|].
    destruct (Py.split_on sep a) as [|piece pieces] eqn:Ha; [|done].
    by destruct a; simpl in Ha; repeat case_match.
Qed.

Lemma split_on_nonempty (sep : ascii) (s : string) : Py.split_on sep s ≠ [].
Proof.
  destruct s as [|c s]; simpl; [done|].
  destruct (Ascii.eqb c sep); [done|]. by destruct (Py.split_on sep s).
Qed.

Lemma split_on_without_sep (sep : ascii) (s : string) :
  Py.mem sep s = false → Py.split_on sep s = [s].
Proof.
  induction s as [|c s IH]; [done|]. simpl. rewrite Ascii.eqb_sym.
  destruct (Ascii.eqb c sep); [done|]. intros H. by rewrite IH.
Qed.

(** Joining pieces that hold no separator and splitting again gives the
    pieces back. *)
Lemma split_on_join (sep : ascii) (pieces : list string) :
  pieces ≠ [] → Forall (λ piece, Py.mem sep piece = false) pieces →
  Py.split_on sep (Py.join (String sep "") pieces) = pieces.
Proof.
  intros Hne H. induction H as [|p rest Hp Hrest IH]; [done|].
  destruct rest as [|q rest].
  - simpl. by apply split_on_without_sep.
  - change (Py.join (String sep "") (p :: q :: rest))
      with (p +:+ String sep "" +:+ Py.join (String sep "") (q :: rest)).
    rewrite append_cons, append_nil_l, split_on_app.
    rewrite split_on_without_sep by done. rewrite IH by done. done.
Qed.

(** ** Invariants of the plan parser *)

(** The five things one line can do to the variables of the parser. *)
Lemma parse_line_cases (st st' : Parser.state) (raw : string) :
  Parser.parse_line st raw = Ok st' →
  (Parser.plan_header (Py.strip raw) = true
   ∧ st' = {| Parser.plan_lines := Parser.plan_lines st;
              Parser.sub_questions := Parser.sub_questions st;
              Parser.in_plan := true; Parser.in_subq := false |})
  ∨ (Parser.subq_header (Py.strip raw) = true
     ∧ st' = {| Parser.plan_lines := Parser.plan_lines st;
                Parser.sub_questions := Parser.sub_questions st;
                Parser.in_plan := false; Parser.in_subq := true |})
  ∨ (Parser.in_plan st = true ∧ starts_with_digit (Py.strip raw)
     ∧ st' = {| Parser.plan_lines := Parser.plan_lines st ++ [Py.strip raw];
                Parser.sub_questions := Parser.sub_questions st;
                Parser.in_plan := Parser.in_plan st;
                Parser.in_subq := Parser.in_subq st |})
  ∨ (Parser.in_subq st = true ∧ Py.startswith "-" (Py.strip raw) = true
     ∧ st' = {| Parser.plan_lines := Parser.plan_lines st;
                Parser.sub_questions :=
                  Parser.sub_questions st ++ [Parser.clean_query (Py.strip raw)];
                Parser.in_plan := Parser.in_plan st;
                Parser.in_subq := Parser.in_subq st |})
  ∨ st' = st.
Proof.
  unfold Parser.parse_line, Parser.subq_header, Parser.plan_header.
  destruct (Py.startswith "plan:" (Py.strip raw)); [intros [= <-]; by left|].
  destruct (Py.startswith "sub_questions:" (Py.strip raw));
    [intros [= <-]; right; by left|].
  assert (∀ st0, (if Parser.in_subq st && Py.startswith "-" (Py.strip raw)
                  then Ok {| Parser.plan_lines := Parser.plan_lines st;
                             Parser.sub_questions :=
                               Parser.sub_questions st
                               ++ [Parser.clean_query (Py.strip raw)];
                             Parser.in_plan := Parser.in_plan st;
                             Parser.in_subq := Parser.in_subq st |}
                  else Ok st) = Ok st0 →
          (Parser.in_subq st = true ∧ Py.startswith "-" (Py.strip raw) = true
           ∧ st0 = {| Parser.plan_lines := Parser.plan_lines st;
                      Parser.sub_questions :=
                        Parser.sub_questions st
                        ++ [Parser.clean_query (Py.strip raw)];
                      Parser.in_plan := Parser.in_plan st;
                      Parser.in_subq := Parser.in_subq st |})
          ∨ st0 = st) as Hsubq.
  { intros st0 H. destruct (Parser.in_subq st); cbn [andb] in H;
      [destruct (Py.startswith "-" (Py.strip raw))|]; simplify_eq; auto. }
  destruct (Parser.in_plan st) eqn:Hp; simpl.
  - destruct (Py.strip raw) as [|c line] eqn:Hline; simpl.
    + intros H. apply Hsubq in H as [H|H]; auto 10.
    + destruct (Py.isdigit c) eqn:Hc.
      * intros [= <-]. do 2 right. left. split; [done|]. split; [|done].
        by exists c, line.
      * intros H. apply Hsubq in H as [H|H]; auto 10.
  - intros H. apply Hsubq in H as [H|H]; auto 10.
Qed.

Lemma strip_single_line (raw : string) : single_line raw → single_line (Py.strip raw).
Proof. apply mem_strip_by. Qed.

Lemma parse_line_invariant (st st' : Parser.state) (raw : string) :
  single_line raw → parser_invariant st →
  Parser.parse_line st raw = Ok st' → parser_invariant st'.
Proof.
  intros Hraw (Hmodes & Hplan & Hsubq) H.
  apply parse_line_cases in H
    as [[_ ->] | [[_ ->] | [(_ & Hd & ->) | [(_ & _ & ->) | ->]]]];
    unfold parser_invariant; simpl; try done.
  - split; [done|]. split; [|done].
    apply Forall_app. split; [done|]. constructor; [|done].
    split; [done|]. split; [by apply strip_single_line | apply strip_by_idem].
  - split; [done|]. split; [done|].
    apply Forall_app. split; [done|]. constructor; [|done].
    split; [|apply strip_by_idem].
    unfold Parser.clean_query, Py.strip_chars.
    by do 2 apply mem_strip_by; apply strip_single_line.
Qed.

Lemma parse_lines_invariant (lines : list string) (st st' : Parser.state) :
  Forall single_line lines → parser_invariant st →
  Parser.parse_lines st lines = Ok st' → parser_invariant st'.
Proof.
  intros Hlines. revert st. induction Hlines as [|raw rest Hraw _ IH]; intros st Hst.
  - by intros [= <-].
  - simpl. destruct (Parser.parse_line st raw) as [st1|e] eqn:H1; [simpl|done].
    apply IH. by eapply parse_line_invariant.
Qed.

Lemma parse_line_count (st st' : Parser.state) (raw : string) :
  Parser.parse_line st raw = Ok st' →
  collected_count st ≤ collected_count st' ≤ S (collected_count st).
Proof.
  intros H. apply parse_line_cases in H
    as [[_ ->] | [[_ ->] | [(_ & _ & ->) | [(_ & _ & ->) | ->]]]];
    unfold collected_count; simpl; rewrite ?length_app; simpl; lia.
Qed.

Lemma parse_lines_count (lines : list string) (st st' : Parser.state) :
  Parser.parse_lines st lines = Ok st' →
  collected_count st' ≤ collected_count st + length lines.
Proof.
  revert st. induction lines as [|raw rest IH]; intros st; simpl.
  - intros [= <-]. lia.
  - destruct (Parser.parse_line st raw) as [st1|e] eqn:H1; [simpl|done].
    intros H. apply IH in H. apply parse_line_count in H1. lia.
Qed.

Lemma parser_invariant_init : parser_invariant Parser.init.
Proof. by repeat split; constructor. Qed.

Lemma collect_invariant (content : string) :
  ∃ st, Parser.collect content = Ok st ∧ parser_invariant st
        ∧ collected_count st ≤ length (Py.split_on (ascii_of_nat 10) content).
Proof.
  unfold Parser.collect.
  destruct (parse_lines_returns (Py.split_on (ascii_of_nat 10) content) Parser.init)
    as [st Hst].
  exists st. split; [done|]. split.
  - eapply parse_lines_invariant; [apply split_on_single_line | | exact Hst].
    apply parser_invariant_init.
  - by apply parse_lines_count in Hst.
Qed.

(** X1. Whatever the text, when the loop of the parser ends it is not
    in plan mode and in sub-question mode at once, and it has collected
    at most one entry per line of the text. *)
Theorem parser_modes_exclusive (content : string) :
  ∃ st, Parser.collect content = Ok st
        ∧ Parser.in_plan st && Parser.in_subq st = false
        ∧ length (Parser.plan_lines st) + length (Parser.sub_questions st)
          ≤ length (Py.split_on (ascii_of_nat 10) content).
Proof.
  destruct (collect_invariant content) as (st & Hst & (Hmodes & _) & Hcount).
  by exists st.
Qed.

Lemma join_starts (sep : string) (c : ascii) (rest : string) (others : list string) :
  ∃ tail, Py.join sep (String c rest :: others) = String c tail.
Proof.
  destruct others as [|q others]; simpl; [eauto|].
  rewrite append_cons. eauto.
Qed.

(** X2. A plan the parser returns is never the empty string. Split at
    its newlines it gives back the lines collected for it, at least one,
    and each of them starts with a digit, holds no newline and has no
    white space at either end. *)
Theorem returned_plan_lines (content : string) :
  ∃ plan subqs,
    _parse_plan_and_subquestions content = Ok (plan, subqs)
    ∧ ∀ text, plan = Some text →
        text ≠ ""
        ∧ ∃ lines, lines ≠ [] ∧ Py.split_on (ascii_of_nat 10) text = lines
                   ∧ Forall plan_line_ok lines.
Proof.
  destruct (collect_invariant content) as (st & Hst & (_ & Hplan & _) & _).
  unfold _parse_plan_and_subquestions. rewrite Hst.
  destruct (negb (Py.truthy content)); simpl; [by eexists _, _|].
  eexists _, _. split; [done|]. intros text.
  destruct (Parser.plan_lines st) as [|l ls] eqn:Hls; [done|].
  intros [= <-]. split.
  - inversion Hplan as [|? ? [(c & r & -> & _) _] _]; subst.
    destruct (join_starts Py.nl c r ls) as [tail Htail].
    change (Py.join Py.nl (String c r :: ls) ≠ ""). by rewrite Htail.
  - exists (l :: ls). split; [done|]. split; [|done].
    change (Py.split_on (ascii_of_nat 10)
              (Py.join (String (ascii_of_nat 10) "") (l :: ls)) = l :: ls).
    apply split_on_join; [done|].
    eapply Forall_impl; [exact Hplan|]. by intros line (_ & H & _).
Qed.

(** X3. A list of sub-questions the parser returns is never empty, has
    at most one entry per line of the text, and none of its entries
    holds a newline or starts or ends with a double quote. *)
Theorem returned_sub_questions (content : string) :
  ∃ plan subqs,
    _parse_plan_and_subquestions content = Ok (plan, subqs)
    ∧ ∀ qs, subqs = Some qs →
        qs ≠ []
        ∧ length qs ≤ length (Py.split_on (ascii_of_nat 10) content)
        ∧ Forall sub_question_ok qs.
Proof.
  destruct (collect_invariant content) as (st & Hst & (_ & _ & Hsubq) & Hcount).
  unfold _parse_plan_and_subquestions. rewrite Hst.
  destruct (negb (Py.truthy content)); simpl; [by eexists _, _|].
  eexists _, _. split; [done|]. intros qs.
  destruct (Parser.sub_questions st) as [|q rest] eqn:Hqs; [done|].
  intros [= <-]. split; [done|]. split; [|done].
  unfold collected_count in Hcount. rewrite Hqs in Hcount. lia.
Qed.

Lemma parse_lines_app (before after : list string) (st : Parser.state) :
  Parser.parse_lines st (before ++ after)
  = (st' ← Parser.parse_lines st before; Parser.parse_lines st' after).
Proof.
  revert st. induction before as [|raw before IH]; intros st; simpl; [done|].
  destruct (Parser.parse_line st raw) as [st1|e]; simpl; [apply IH | done].
Qed.

Lemma no_marker_empty : no_marker "".
Proof. done. Qed.

(** X4. Text before the first section header changes nothing: when no
    line of a preamble starts, trimmed, with a header, the parser
    returns for the preamble followed by a newline and a text what it
    returns for the text alone. *)
Theorem preamble_is_ignored (preamble rest : string) :
  Forall no_marker (Py.split_on (ascii_of_nat 10) preamble) →
  _parse_plan_and_subquestions (preamble +:+ Py.nl +:+ rest)
  = _parse_plan_and_subquestions rest.
Proof.
  intros Hpre. unfold _parse_plan_and_subquestions, Parser.collect.
  assert (Py.truthy (preamble +:+ Py.nl +:+ rest) = true) as ->.
  { destruct preamble; [done|]. by rewrite append_cons. }
  unfold Py.nl at 1. rewrite append_cons, append_nil_l, split_on_app.
  rewrite parse_lines_app,
    (parse_lines_outside_sections _ Parser.init eq_refl eq_refl Hpre).
  simpl. destruct rest as [|c rest]; [done|]. done.
Qed.

Lemma preamble_is_ignored_witness :
  _parse_plan_and_subquestions
    ("Sure, here is the search plan." +:+ Py.nl +:+ Sample.planner_output)
  = Ok (Some ("1. A" +:+ Py.nl +:+ "2. B"), Some ["x"; "y"]).
Proof.
  rewrite (preamble_is_ignored "Sure, here is the search plan." Sample.planner_output).
  - vm_compute. reflexivity.
  - constructor; [split; vm_compute; reflexivity | constructor].
Defined.

(** ** More on the nodes *)

(** X5. The content extracted from the messages of an agent is that of
    its last AI message: messages after it that are not AI messages are
    passed over, and so is any tail without AI message. *)
Theorem extract_is_last_ai_message
    (before after : list BaseMessage) (text : string) :
  (∀ later, AIMessage later ∉ after) →
  _extract_last_ai_content (before ++ AIMessage text :: after) = text
  ∧ _extract_last_ai_content (before ++ after) = _extract_last_ai_content before.
Proof.
  intros Hafter. unfold _extract_last_ai_content.
  assert (∀ later, AIMessage later ∉ reverse after) as Hrev.
  { intros later Hin. rewrite elem_of_reverse in Hin. by apply (Hafter later). }
  split.
  - rewrite reverse_app, reverse_cons, <- app_assoc.
    by rewrite first_ai_content_skip.
  - rewrite reverse_app. by rewrite first_ai_content_skip.
Qed.

Lemma extract_is_last_ai_message_witness :
  _extract_last_ai_content
    [AIMessage "call the tool"; ToolMessage "chunks"; AIMessage "the answer";
     HumanMessage "thanks"] = "the answer".
Proof.
  apply (extract_is_last_ai_message
           [AIMessage "call the tool"; ToolMessage "chunks"] [HumanMessage "thanks"]
           "the answer").
  by intros later ?%list_elem_of_singleton.
Defined.

Lemma to_agent_messages_length (window : list Message) :
  length (concat (map to_agent_messages window)) ≤ length window.
Proof.
  induction window as [|m window IH]; simpl; [done|].
  rewrite length_app. unfold to_agent_messages at 1.
  destruct (String.eqb (role m) "user"); [simpl; lia|].
  destruct (String.eqb (role m) "assistant"); simpl; lia.
Qed.

Lemma last_n_snoc {A : Type} (n : nat) (l : list A) (x : A) :
  last_n (S n) (l ++ [x]) = last_n n l ++ [x].
Proof.
  unfold last_n. rewrite length_app. simpl.
  replace (length l + 1 - S n) with (length l - n) by lia.
  apply drop_app_le. lia.
Qed.

(** X6. The sequence sent to the planning agent always ends with the
    question and holds at most six messages before it. When the history
    itself ends with the question as a user entry, as it does in every
    run of the flow, the question is sent twice in a row. *)
Theorem planner_sends_question_last (state : QAState) :
  ∃ earlier,
    planner_messages state = earlier ++ [HumanMessage (question state)]
    ∧ length earlier ≤ 6
    ∧ ∀ older, messages state = older ++ [user_entry (question state)] →
        ∃ before, earlier = before ++ [HumanMessage (question state)].
Proof.
  exists (concat (map to_agent_messages (last_n 6 (messages state)))).
  split; [done|]. split.
  - etrans; [apply to_agent_messages_length|].
    destruct (last_n_split 6 (messages state)) as [older [_ ->]]. lia.
  - intros older ->. rewrite last_n_snoc, map_app, concat_app. simpl. eauto.
Qed.

Lemma parse_without_markers (content : string) :
  Forall no_marker (Py.split_on (ascii_of_nat 10) content) →
  _parse_plan_and_subquestions content = Ok (None, None).
Proof.
  intros H. unfold _parse_plan_and_subquestions, Parser.collect.
  destruct (negb (Py.truthy content)); [done|].
  by rewrite (parse_lines_outside_sections _ Parser.init eq_refl eq_refl H).
Qed.

(** X7. When the reply of the planning agent holds no AI message, or an
    AI message none of whose lines starts, trimmed, with a header, the
    Plan stage returns None as plan and None as sub-questions, and does
    not raise. *)
Theorem planner_without_sections
    (agent : Agent) (state : QAState) (result : AgentResult) :
  agent (planner_messages state) = Ok result →
  (∀ text, AIMessage text ∉ get_messages result)
  ∨ Forall no_marker (Py.split_on (ascii_of_nat 10)
                        (_extract_last_ai_content (get_messages result))) →
  planner_node agent state =
    Ok {| upd_question := None; upd_plan := Some None;
          upd_sub_questions := Some None; upd_context := None;
          upd_draft_answer := None; upd_answer := None; upd_messages := None |}.
Proof.
  intros Hagent H. unfold planner_node. rewrite Hagent. simpl.
  rewrite parse_without_markers; [done|].
  destruct H as [H|H]; [|done].
  rewrite extract_without_ai by done. by repeat constructor.
Qed.

Lemma planner_without_sections_witness :
  planner_node (Sample.replying [AIMessage "I cannot plan this."])
    (Sample.state_with "q" [user_entry "q"]) =
    Ok {| upd_question := None; upd_plan := Some None;
          upd_sub_questions := Some None; upd_context := None;
          upd_draft_answer := None; upd_answer := None; upd_messages := None |}.
Proof.
  apply (planner_without_sections _ _
           {| result_messages := Some [AIMessage "I cannot plan this."] |} eq_refl).
  right. constructor; [split; vm_compute; reflexivity | constructor].
Defined.

(** X8. A node raises exactly when the agent it invokes raises, and
    then the same exception: the nodes catch nothing and raise nothing
    of their own. *)
Theorem nodes_raise_with_their_agent (agent : Agent) (state : QAState) (e : PyExn) :
  (planner_node agent state = Raised e ↔ agent (planner_messages state) = Raised e)
  ∧ (retrieval_node agent state = Raised e
     ↔ agent [HumanMessage (retrieval_query state)] = Raised e)
  ∧ (summarization_node agent state = Raised e
     ↔ agent [HumanMessage (summarization_query state)] = Raised e)
  ∧ (verification_node agent state = Raised e
     ↔ agent [HumanMessage (verification_query state)] = Raised e).
Proof.
  unfold planner_node, retrieval_node, summarization_node, verification_node.
  repeat split; intros H.
  - destruct (agent (planner_messages state)) as [result|e']; [|by simplify_eq/=].
    simpl in H.
    destruct (parse_returns (_extract_last_ai_content (get_messages result)))
      as [parsed Hp]. by rewrite Hp in H.
  - by rewrite H.
  - destruct (agent [HumanMessage (retrieval_query state)]); by simplify_eq/=.
  - by rewrite H.
  - destruct (agent [HumanMessage (summarization_query state)]); by simplify_eq/=.
  - by rewrite H.
  - destruct (agent [HumanMessage (verification_query state)]); by simplify_eq/=.
  - by rewrite H.
Qed.

(** ** More on the Retrieve stage *)

(** X9. Whatever the length of the previous answer, the continuity note
    adds at most 232 characters to the query of the Retrieve stage. *)
Theorem context_note_is_bounded (history : list Message) :
  String.length (context_note history) ≤ 232.
Proof.
  unfold context_note. destruct (2 <=? length history)%nat; [|simpl; lia].
  destruct (last_assistant_content history) as [last_answer|]; [|simpl; lia].
  destruct (Py.truthy last_answer); [|simpl; lia].
  unfold excerpt_note. rewrite !length_append.
  destruct (take_is_prefix 200 last_answer) as [rest [_ ->]].
  pose proof (Nat.le_min_l 200 (String.length last_answer)) as Hmin.
  revert Hmin. generalize (200 `min` String.length last_answer).
  intros k Hk. simpl. lia.
Qed.

(** X10. In a history that ends with an answer followed by the new
    question, the note quotes that answer, its first 200 characters,
    unless the answer is empty; a history that holds the question alone
    gives no note. *)
Theorem note_quotes_previous_answer
    (older : list Message) (previous_answer question : string) :
  context_note (older ++ [assistant_entry previous_answer; user_entry question])
  = (if Py.truthy previous_answer then excerpt_note previous_answer else "")
  ∧ context_note [user_entry question] = "".
Proof.
  split; [|done]. unfold context_note.
  rewrite (last_assistant_found older (assistant_entry previous_answer)
             [user_entry question]).
  - rewrite length_app. simpl length.
    destruct (2 <=? length older + 2)%nat eqn:Hlen; [done|].
    apply Nat.leb_gt in Hlen. lia.
  - done.
  - by repeat constructor.
Qed.

Lemma mem_bullet (c : ascii) (sq : string) :
  Py.mem c "- " = false → Py.mem c sq = false → Py.mem c ("- " +:+ sq) = false.
Proof. intros H1 H2. by rewrite mem_append, H1, H2. Qed.

(** X11. When no sub-question holds a newline, as is the case of those
    the parser returns, the text rendered for a non-empty list splits at
    its newlines into one line per sub-question, each a dash and a space
    followed by the sub-question. *)
Theorem formatted_subqs_lines (qs : list string) :
  qs ≠ [] → Forall single_line qs →
  Py.split_on (ascii_of_nat 10) (formatted_subqs (Some qs))
  = map (λ sq, "- " +:+ sq) qs.
Proof.
  intros Hne Hqs. destruct qs as [|q qs]; [done|].
  unfold formatted_subqs.
  apply (split_on_join (ascii_of_nat 10)); [done|].
  apply Forall_fmap. eapply Forall_impl; [exact Hqs|].
  intros sq Hsq. by apply mem_bullet.
Qed.

Lemma formatted_subqs_lines_witness :
  Py.split_on (ascii_of_nat 10) (formatted_subqs (Some ["x"; "y"]))
  = ["- x"; "- y"].
Proof.
  apply (formatted_subqs_lines ["x"; "y"]); [done|].
  by repeat constructor.
Defined.

(** ** More on the entry point *)

(** X12. The identifier of a run, given back as session identifier to a
    later run, is the identifier of that run too, whatever UUID the
    later run draws. *)
Theorem thread_id_is_kept (session_id : option string) (uuid4 later_uuid4 : N) :
  thread_id_of (Some (thread_id_of session_id uuid4)) later_uuid4
  = thread_id_of session_id uuid4.
Proof.
  unfold thread_id_of at 1. by rewrite thread_id_truthy.
Qed.

Lemma step_raises (node : QAState → outcome QAUpdate) (state : QAState) (e : PyExn) :
  Graph.step node state = Raised e → node state = Raised e.
Proof. unfold Graph.step. destruct (node state); intros H; by simplify_eq/=. Qed.

Lemma node_raises (agents : Agents) (state : QAState) (e : PyExn) :
  planner_node (planner_agent agents) state = Raised e
  ∨ retrieval_node (retrieval_agent agents) state = Raised e
  ∨ summarization_node (summarization_agent agents) state = Raised e
  ∨ verification_node (verification_agent agents) state = Raised e →
  ∃ msgs,
    planner_agent agents msgs = Raised e
    ∨ retrieval_agent agents msgs = Raised e
    ∨ summarization_agent agents msgs = Raised e
    ∨ verification_agent agents msgs = Raised e.
Proof.
  unfold planner_node, retrieval_node, summarization_node, verification_node.
  intros [H|[H|[H|H]]].
  - exists (planner_messages state). left.
    destruct (planner_agent agents (planner_messages state)) as [result|e'];
      [|by simplify_eq/=].
    simpl in H.
    destruct (parse_returns (_extract_last_ai_content (get_messages result)))
      as [parsed Hp]. by rewrite Hp in H.
  - eexists. right; left.
    destruct (retrieval_agent agents _) eqn:E in H; simplify_eq/=. exact E.
  - eexists. do 2 right; left.
    destruct (summarization_agent agents _) eqn:E in H; simplify_eq/=. exact E.
  - eexists. do 3 right.
    destruct (verification_agent agents _) eqn:E in H; simplify_eq/=. exact E.
Qed.

(** X13. A run raises only what one of its four agents raised: every
    exception of a run is the exception of an agent on some request. *)
Theorem run_raises_only_with_an_agent (agents : Agents) (uuid4 : N)
    (checkpoints : Checkpoints) (question : string) (session_id : option string)
    (e : PyExn) :
  run_qa_flow agents uuid4 checkpoints question session_id = Raised e →
  ∃ msgs,
    planner_agent agents msgs = Raised e
    ∨ retrieval_agent agents msgs = Raised e
    ∨ summarization_agent agents msgs = Raised e
    ∨ verification_agent agents msgs = Raised e.
Proof.
  unfold run_qa_flow. cbv zeta.
  destruct (Graph.invoke _ _) as [final_state|e'] eqn:Hrun; [done|].
  intros [= ->]. revert Hrun. unfold Graph.invoke.
  destruct (Graph.step (planner_node _) _) as [s1|e1] eqn:H1; simpl.
  2:{ intros [= ->]. apply step_raises in H1. eapply node_raises; eauto. }
  destruct (Graph.step (retrieval_node _) _) as [s2|e2] eqn:H2; simpl.
  2:{ intros [= ->]. apply step_raises in H2. eapply node_raises; eauto. }
  destruct (Graph.step (summarization_node _) _) as [s3|e3] eqn:H3; simpl.
  2:{ intros [= ->]. apply step_raises in H3. eapply node_raises; eauto. }
  intros H4. apply step_raises in H4. eapply node_raises; eauto 6.
Qed.

Lemma run_raises_only_with_an_agent_witness :
  run_qa_flow agents_with_failing_retrieval Sample.uuid_a ∅ "q" None
  = Raised (AgentError "rate limit")
  ∧ ∃ msgs,
      planner_agent agents_with_failing_retrieval msgs
      = Raised (AgentError "rate limit")
      ∨ retrieval_agent agents_with_failing_retrieval msgs
        = Raised (AgentError "rate limit")
      ∨ summarization_agent agents_with_failing_retrieval msgs
        = Raised (AgentError "rate limit")
      ∨ verification_agent agents_with_failing_retrieval msgs
        = Raised (AgentError "rate limit").
Proof.
  split; [reflexivity|].
  apply (run_raises_only_with_an_agent agents_with_failing_retrieval
           Sample.uuid_a ∅ "q" None (AgentError "rate limit") eq_refl).
Defined.

(** ** The module-level objects *)

Lemma get_checkpointer_settles (g g' : Globals) (saver : nat) :
  get_checkpointer g = (saver, g') →
  _checkpointer g' = Some saver
  ∧ qa_graph_cache g' = qa_graph_cache g
  ∧ (∀ s, _checkpointer g = Some s → s = saver).
Proof.
  unfold get_checkpointer. destruct (_checkpointer g) as [s|] eqn:Hs;
    intros [= <- <-]; simpl; repeat split; try done. by intros ? [= ->].
Qed.

(** What one use of the module does to its state. *)
Lemma call_settles (c : Call) (g g' : Globals) (r : Returned) :
  globals_consistent g → call c g = (r, g') →
  globals_consistent g'
  ∧ _checkpointer g' = Some (checkpointer_of r)
  ∧ (∀ graph, r = RetCached graph → qa_graph_cache g' = Some graph)
  ∧ (∀ s, _checkpointer g = Some s → _checkpointer g' = Some s)
  ∧ (∀ graph, qa_graph_cache g = Some graph → qa_graph_cache g' = Some graph).
Proof.
  intros Hg. destruct c; simpl.
  - destruct (get_checkpointer g) as [saver g1] eqn:H1. intros [= <- <-].
    apply get_checkpointer_settles in H1 as (Hs & Hc & Hsame). simpl.
    repeat split; try done.
    + intros graph Hgraph. rewrite Hc in Hgraph. apply Hg in Hgraph.
      by rewrite Hs, (Hsame _ Hgraph).
    + intros s H. by rewrite Hs, (Hsame _ H).
    + intros graph. by rewrite Hc.
  - unfold create_qa_graph.
    destruct (get_checkpointer g) as [saver g1] eqn:H1. intros [= <- <-].
    apply get_checkpointer_settles in H1 as (Hs & Hc & Hsame). simpl.
    repeat split; try done.
    + intros graph Hgraph. simpl in *. rewrite Hc in Hgraph. apply Hg in Hgraph.
      by rewrite Hs, (Hsame _ Hgraph).
    + intros s H. by rewrite Hs, (Hsame _ H).
    + intros graph. by rewrite Hc.
  - unfold get_qa_graph. destruct (qa_graph_cache g) as [cached|] eqn:Hcache.
    + intros [= <- <-]. simpl. repeat split; try done.
      * by apply Hg.
      * by intros graph [= <-].
      * by intros graph [= <-].
    + unfold create_qa_graph.
      destruct (get_checkpointer g) as [saver g1] eqn:H1. intros [= <- <-].
      apply get_checkpointer_settles in H1 as (Hs & Hc & Hsame). simpl.
      repeat split; try done.
      * intros graph [= <-]. done.
      * by intros graph [= <-].
      * intros s H. by rewrite Hs, (Hsame _ H).
Qed.

Lemma calls_settle (cs : list Call) (g : Globals) :
  globals_consistent g →
  globals_consistent (calls cs g).2
  ∧ Forall (λ r, _checkpointer (calls cs g).2 = Some (checkpointer_of r)
                 ∧ ∀ graph, r = RetCached graph →
                            qa_graph_cache (calls cs g).2 = Some graph)
      (calls cs g).1
  ∧ (∀ s, _checkpointer g = Some s → _checkpointer (calls cs g).2 = Some s)
  ∧ (∀ graph, qa_graph_cache g = Some graph →
              qa_graph_cache (calls cs g).2 = Some graph).
Proof.
  revert g. induction cs as [|c cs IH]; intros g Hg; simpl.
  - repeat split; try done.
  - destruct (call c g) as [r g1] eqn:Hcall.
    destruct (call_settles c g g1 r Hg Hcall) as (Hg1 & Hr & Hcached & Hs & Hc).
    specialize (IH g1 Hg1). destruct (calls cs g1) as [rs g2]. simpl in *.
    destruct IH as (Hg2 & Hrs & Hs2 & Hc2).
    repeat split; try done.
    + constructor; [|done]. split; [by apply Hs2|].
      intros graph Hgraph. by apply Hc2, Hcached.
    + intros s H. by apply Hs2, Hs.
    + intros graph H. by apply Hc2, Hc.
Qed.

(** X15. However the module is used after import, one checkpointer
    serves: every call of [get_checkpointer] returns it and every graph
    made or returned uses it. [get_qa_graph] returns one and the same
    graph at every call. *)
Theorem one_checkpointer_one_graph (cs : list Call) :
  Forall (λ r, _checkpointer (calls cs globals_at_import).2
               = Some (checkpointer_of r)
               ∧ ∀ graph, r = RetCached graph →
                          qa_graph_cache (calls cs globals_at_import).2 = Some graph)
    (calls cs globals_at_import).1.
Proof.
  by destruct (calls_settle cs globals_at_import) as (_ & H & _).
Qed.

(** X16. In the graph that [create_qa_graph] makes, the edges lead from
    START through planner, retrieval, summarization and verification to
    END, and the run that follows them is the run of the four nodes in
    that order, ended by the first exception. *)
Theorem graph_runs_nodes_in_order (g : Globals) (agents : Agents) (state : QAState) :
  path 25 (graph_edges (create_qa_graph g).1) START
  = [START; "planner"; "retrieval"; "summarization"; "verification"; END]
  ∧ run_graph (create_qa_graph g).1 agents state
    = Some (Graph.invoke agents state).
Proof.
  unfold create_qa_graph. destruct (get_checkpointer g) as [saver g1].
  split; [reflexivity|].
  unfold run_graph, Graph.invoke. simpl.
  destruct (Graph.step (planner_node _) state) as [s1|e]; [simpl|done].
  destruct (Graph.step (retrieval_node _) s1) as [s2|e]; [simpl|done].
  destruct (Graph.step (summarization_node _) s2) as [s3|e]; [simpl|done].
  by destruct (Graph.step (verification_node _) s3).
Qed.

(** ** The upload of a file *)

(** X17. A call of [uploadFile] ends in one of four ways. With a
    content type other than PDF it raises status 400 and has read,
    logged and stored nothing. With a PDF, when the first operation that
    does not return raises an exception of the class Exception, it
    raises status 500, with the same detail whatever failed and the
    failure logged last. When that operation raises an exception outside
    that class, the exception leaves the call uncaught and no error is
    logged. When the four operations return, it returns the timestamped
    name and the public URL, after one upload and two log lines. *)
Theorem upload_outcomes (supabase : Upload.Supabase) (timestamp : Z)
    (file : Upload.UploadFile) :
  let name := Upload.unique_filename timestamp file in
  let response := (Upload.uploadFile supabase timestamp file).1 in
  let trace := (Upload.uploadFile supabase timestamp file).2 in
  (Upload.content_type file ≠ Some "application/pdf"
   ∧ response = Upload.HTTPException 400 "Only PDF files are allowed"
   ∧ trace = [])
  ∨ (Upload.content_type file = Some "application/pdf"
     ∧ ∃ e,
         Upload.first_failure supabase timestamp file (λ A, Upload.Raises e)
         ∧ response = Upload.HTTPException 500 "Failed to upload file"
         ∧ ∃ earlier,
             trace = earlier ++ [Upload.LogError ("Supabase upload failed: " +:+ e)]
             ∧ forallb (λ ev, negb (Upload.is_log_error ev)) earlier = true)
  ∨ (Upload.content_type file = Some "application/pdf"
     ∧ ∃ e,
         Upload.first_failure supabase timestamp file (λ A, Upload.Escapes e)
         ∧ response = Upload.Uncaught e
         ∧ forallb (λ ev, negb (Upload.is_log_error ev)) trace = true)
  ∨ (Upload.content_type file = Some "application/pdf"
     ∧ ∃ contents bucket url,
         Upload.read file = Upload.Returns contents
         ∧ Upload.get_supabase_client supabase = Upload.Returns bucket
         ∧ Upload.upload supabase bucket name contents = Upload.Returns ()
         ∧ Upload.get_public_url supabase bucket name = Upload.Returns url
         ∧ response = Upload.Uploaded name url
         ∧ trace =
             [Upload.LogInfo ("Starting upload for "
                              +:+ Py.fmt_opt (Upload.filename file));
              Upload.StorageUpload bucket name contents "application/pdf" false;
              Upload.LogInfo ("Successfully uploaded to Supabase: " +:+ name)]).
Proof.
  cbv zeta. unfold Upload.uploadFile, Upload.first_failure.
  case_bool_decide as Hpdf; simpl; [|by left].
  right.
  destruct (Upload.read file) as [contents|e|e] eqn:Hread.
  2:{ left. split; [done|]. exists e. split; [by left|]. split; [done|].
      by exists []. }
  2:{ right; left. split; [done|]. exists e. split; [by left|]. done. }
  destruct (Upload.get_supabase_client supabase) as [bucket|e|e] eqn:Hclient.
  2:{ left. split; [done|]. exists e. split; [right; left; eauto|].
      split; [done|]. by eexists. }
  2:{ right; left. split; [done|]. exists e. split; [right; left; eauto|]. done. }
  destruct (Upload.upload supabase bucket _ contents) as [[]|e|e] eqn:Hupload.
  2:{ left. split; [done|]. exists e. split; [do 2 right; left; eauto|].
      split; [done|]. by eexists. }
  2:{ right; left. split; [done|]. exists e.
      split; [do 2 right; left; eauto|]. done. }
  destruct (Upload.get_public_url supabase bucket _) as [url|e|e] eqn:Hurl.
  2:{ left. split; [done|]. exists e. split; [do 3 right; eauto 10|].
      split; [done|]. by eexists. }
  2:{ right; left. split; [done|]. exists e.
      split; [do 3 right; eauto 10|]. done. }
  do 2 right. split; [done|]. exists contents, bucket, url. by repeat split.
Qed.

(** X18. A call of [uploadFile] uploads at most once, and only a file
    declared as PDF that could be read: what it uploads is the content
    read, under the timestamped name, as PDF and without overwriting. *)
Theorem upload_at_most_once (supabase : Upload.Supabase) (timestamp : Z)
    (file : Upload.UploadFile) :
  let trace := (Upload.uploadFile supabase timestamp file).2 in
  length (filter (λ ev, Upload.is_storage_upload ev = true) trace) ≤ 1
  ∧ ∀ bucket path content mime upsert,
      Upload.StorageUpload bucket path content mime upsert ∈ trace →
      Upload.content_type file = Some "application/pdf"
      ∧ Upload.read file = Upload.Returns content
      ∧ Upload.get_supabase_client supabase = Upload.Returns bucket
      ∧ path = Upload.unique_filename timestamp file
      ∧ mime = "application/pdf" ∧ upsert = false.
Proof.
  cbv zeta. unfold Upload.uploadFile, Upload.failed.
  case_bool_decide as Hpdf; simpl; [|split; [lia | by intros * ?%elem_of_nil]].
  destruct (Upload.read file) as [contents|e|e] eqn:Hread; simpl.
  2,3: split; [by vm_compute; lia|]; intros * Hin; by decompose_list_elem_of.
  destruct (Upload.get_supabase_client supabase) as [bucket|e|e] eqn:Hclient; simpl.
  2,3: split; [by vm_compute; lia|]; intros * Hin; by decompose_list_elem_of.
  destruct (Upload.upload supabase bucket _ contents) as [[]|e|e]; simpl.
  2,3: split; [by vm_compute; lia|]; intros * Hin;
       by decompose_list_elem_of; simplify_eq.
  destruct (Upload.get_public_url supabase bucket _) as [url|e|e]; simpl;
    (split; [by vm_compute; lia|]); intros * Hin;
    by decompose_list_elem_of; simplify_eq.
Qed.

Lemma uint_text_has_no_underscore (d : Decimal.uint) :
  Py.mem "_" (DecimalString.NilEmpty.string_of_uint d) = false.
Proof. induction d; simpl; done. Qed.

Lemma str_int_has_no_underscore (n : Z) : Py.mem "_" (Upload.str_int n) = false.
Proof.
  unfold Upload.str_int.
  destruct (Z.to_int n) as [d|d]; simpl;
    destruct d; simpl; try done; apply uint_text_has_no_underscore.
Qed.

Lemma to_int_not_nil (n : Z) :
  Z.to_int n ≠ Decimal.Pos Decimal.Nil ∧ Z.to_int n ≠ Decimal.Neg Decimal.Nil.
Proof.
  destruct n as [|p|p]; simpl; split; try done;
    intros [= H]; by apply DecimalPos.Unsigned.to_uint_nonnil in H.
Qed.

Lemma str_int_inj (a b : Z) : Upload.str_int a = Upload.str_int b → a = b.
Proof.
  unfold Upload.str_int. intros H.
  destruct (to_int_not_nil a) as [Ha1 Ha2], (to_int_not_nil b) as [Hb1 Hb2].
  apply (f_equal DecimalString.NilZero.int_of_string) in H.
  rewrite !DecimalString.NilZero.isi in H by done.
  injection H as H. by apply DecimalZ.to_int_inj.
Qed.

(** Two texts cut at their first occurrence of a character. *)
Lemma append_at_first (c : ascii) (a a' r r' : string) :
  Py.mem c a = false → Py.mem c a' = false →
  a +:+ String c r = a' +:+ String c r' → a = a' ∧ r = r'.
Proof.
  revert a'. induction a as [|x a IH]; intros [|y a']; simpl;
    rewrite ?append_cons, ?append_nil_l.
  - by intros _ _ [= ->].
  - intros _ H [= <- _]. by rewrite Ascii.eqb_refl in H.
  - intros H _ [= -> _]. by rewrite Ascii.eqb_refl in H.
  - destruct (Ascii.eqb c x) eqn:Hx; [done|].
    destruct (Ascii.eqb c y) eqn:Hy; [done|].
    intros Ha Ha' [= -> H]. by destruct (IH a' Ha Ha' H) as [-> ->].
Qed.

(** X19. The name under which a file is stored tells the second of the
    upload and the name of the file: two uploads get the same stored
    name exactly when they happen in the same second with the same file
    name, a missing file name counting as the name None. *)
Theorem unique_filename_tells_time_and_name
    (timestamp timestamp' : Z) (file file' : Upload.UploadFile) :
  Upload.unique_filename timestamp file = Upload.unique_filename timestamp' file'
  ↔ timestamp = timestamp'
    ∧ Py.fmt_opt (Upload.filename file) = Py.fmt_opt (Upload.filename file').
Proof.
  unfold Upload.unique_filename. split.
  - rewrite !(append_cons "_" ""), !append_nil_l.
    intros [H1 H2]%append_at_first; try apply str_int_has_no_underscore.
    split; [by apply str_int_inj | done].
  - by intros [-> ->].
Qed.

(** ** The response model *)

(** X20. What a run returns is always a valid [QAResponse]: the answer,
    the context and the session identifier are strings, never None, and
    the plan and the sub-questions are of their declared optional types.
    The answer of the response is the content of the last entry of the
    history returned. *)
Theorem run_result_is_a_response (agents : Agents) (uuid4 : N)
    (checkpoints : Checkpoints) (question : string) (session_id : option string)
    (result : gmap string Value) (checkpoints' : Checkpoints) :
  run_qa_flow agents uuid4 checkpoints question session_id
  = Ok (result, checkpoints') →
  ∃ response history,
    QAResponse_validate result = Some response
    ∧ response_session_id response = thread_id_of session_id uuid4
    ∧ result !! "messages" = Some (VMessages history)
    ∧ last history = Some (assistant_entry (response_answer response)).
Proof.
  intros Hrun.
  apply run_inv in Hrun as (final & a & -> & _ & Ha & [c Hc] & _ & Hm).
  unfold QAResponse_validate.
  change ((<["session_id":=VStr (thread_id_of session_id uuid4)]>
            (Graph.values final)) !! "answer")
    with (Some (opt_value VStr (answer final))).
  change ((<["session_id":=VStr (thread_id_of session_id uuid4)]>
            (Graph.values final)) !! "context")
    with (Some (opt_value VStr (context final))).
  change ((<["session_id":=VStr (thread_id_of session_id uuid4)]>
            (Graph.values final)) !! "plan")
    with (Some (opt_value VStr (plan final))).
  change ((<["session_id":=VStr (thread_id_of session_id uuid4)]>
            (Graph.values final)) !! "sub_questions")
    with (Some (opt_value VStrs (sub_questions final))).
  change ((<["session_id":=VStr (thread_id_of session_id uuid4)]>
            (Graph.values final)) !! "session_id")
    with (Some (VStr (thread_id_of session_id uuid4))).
  rewrite Ha, Hc. simpl.
  exists {| response_answer := a; response_context := c;
            response_plan := plan final;
            response_sub_questions := sub_questions final;
            response_session_id := thread_id_of session_id uuid4 |},
         (messages final).
  split; [by destruct (plan final), (sub_questions final)|].
  split; [done|]. split; [done|]. by rewrite Hm, last_snoc.
Qed.

Lemma run_result_is_a_response_witness :
  ∃ result checkpoints' response,
    run_qa_flow Sample.agents Sample.uuid_a ∅ "What is a vector database?" None
    = Ok (result, checkpoints')
    ∧ QAResponse_validate result = Some response
    ∧ response_session_id response = "00000000-0000-4000-8000-000000000007".
Proof.
  destruct (run_result_is_a_response Sample.agents Sample.uuid_a ∅
              "What is a vector database?" None _ _ eq_refl)
    as (response & history & Hv & Hs & _).
  eexists _, _, response. split; [reflexivity|]. split; [exact Hv | exact Hs].
Defined.
